(** * BittensorDCA: the decision engine of [dca_stake.py]

    A shallow embedding of the cron-driven staking script: network
    connection with retry and fallback, whitelist scoring, the liquidity
    gate and the orchestration in [run] and [main].

    Conventions of the embedding.
    - A Python [float] is a binary64 number, Rocq's primitive [float]:
      products, quotients and sums round as the script's do, comparisons
      with NaN are false.
    - An attribute that the script converts with [float(...)] is an [attr]:
      the conversion yields a number or raises [AttributeError],
      [TypeError], [ValueError] or [OverflowError].
    - Calls to collaborators (the chain client, the wallet, the file
      system) are answered by a [World]; every such call and every log
      record that reaches the sinks is appended to a trace of [event]s.
    - Statements of a function body run in the [M] monad, which carries
      the trace and the three ways a statement can complete: fall through
      with a value, [return] from the enclosing function, or raise. *)

From Stdlib Require Import ZArith QArith Qround Lia Floats.
From stdpp Require Import base list sets strings pretty.

#[local] Set Warnings "-inexact-float".

Local Open Scope Z_scope.
Local Open Scope string_scope.
Local Open Scope list_scope.

(** ** Numbers *)

Module Num.

(** [a < b], [a <= b], [a * b], [a / b] and [a + b] on floats. *)
Definition ltb (a b : float) : bool := PrimFloat.ltb a b.
Definition leb (a b : float) : bool := PrimFloat.leb a b.
Definition mul (a b : float) : float := PrimFloat.mul a b.
Definition div (a b : float) : float := PrimFloat.div a b.
Definition add (a b : float) : float := PrimFloat.add a b.

(** [a == b] on floats. *)
Definition eqb (a b : float) : bool := PrimFloat.eqb a b.

(** The place of a float in the order of the extended reals, as a triple
    compared lexicographically; [None] for NaN. *)
Definition rank (x : spec_float) : option (Z * Z * Z) :=
  match x with
  | S754_nan => None
  | S754_infinity true => Some (-2, 0, 0)
  | S754_infinity false => Some (2, 0, 0)
  | S754_zero _ => Some (0, 0, 0)
  | S754_finite true m e => Some (-1, - e, - Zpos m)
  | S754_finite false m e => Some (1, e, Zpos m)
  end.

Definition key (x : float) : option (Z * Z * Z) := rank (Prim2SF x).

Definition lex_lt (a b : Z * Z * Z) : Prop :=
  let '(c1, e1, m1) := a in
  let '(c2, e2, m2) := b in
  c1 < c2 \/ (c1 = c2 /\ (e1 < e2 \/ (e1 = e2 /\ m1 < m2))).

Definition lex_le (a b : Z * Z * Z) : Prop :=
  let '(c1, e1, m1) := a in
  let '(c2, e2, m2) := b in
  c1 < c2 \/ (c1 = c2 /\ (e1 < e2 \/ (e1 = e2 /\ m1 <= m2))).

(** Nearest integer, ties to even: the rounding of [format(x, '.Nf')]. *)
Definition round_half_even (q : Q) : Z :=
  let f := Qfloor q in
  match (q - inject_Z f ?= 1 # 2)%Q with
  | Lt => f
  | Gt => f + 1
  | Eq => if Z.even f then f else f + 1
  end.

Fixpoint zeros (n : nat) : string :=
  match n with
  | O => ""
  | S n' => "0" +:+ zeros n'
  end.

Definition pad_left (width : nat) (s : string) : string :=
  zeros (width - String.length s) +:+ s.

(** The decimal digits of a magnitude, rounded to [digits] decimals. *)
Definition format_magnitude (digits : nat) (q : Q) : string :=
  let scale := 10 ^ Z.of_nat digits in
  let n := round_half_even (q * inject_Z scale) in
  pretty (n / scale) +:+ "." +:+ pad_left digits (pretty (n mod scale)).

(** [f"{x:.{digits}f}"]: the exact value of the float, rounded to
    [digits] decimals; [inf] and [nan] are spelled out. *)
Definition format_fixed (digits : nat) (x : float) : string :=
  match Prim2SF x with
  | S754_nan => "nan"
  | S754_infinity s => (if s then "-" else "") +:+ "inf"
  | S754_zero s => (if s then "-" else "") +:+ format_magnitude digits 0
  | S754_finite s m e =>
      (if s then "-" else "")
        +:+ format_magnitude digits (inject_Z (Zpos m) * Qpower 2 e)
  end.

End Num.

(** ** Subnets as the chain client reports them *)

(** The exceptions [float(obj.attr)] can raise on a subnet record. *)
Inductive float_error :=
| AttributeError   (* the attribute is absent *)
| TypeError        (* the value is of no numeric type, e.g. [None] *)
| ValueError (text : string)   (* the value is a text that is no number *)
| OverflowError.   (* the value is an integer too large for a float *)

(** What an attribute of a subnet record holds, as [float] sees it. *)
Inductive attr :=
| Absent
| NotANumber
| Text (text : string)   (* a text that is no number *)
| TooLarge
| Number (x : float).

(** [float(s.<attr>)] *)
Definition py_float (a : attr) : float_error + float :=
  match a with
  | Absent => inl AttributeError
  | NotANumber => inl TypeError
  | Text text => inl (ValueError text)
  | TooLarge => inl OverflowError
  | Number x => inr x
  end.

Record Subnet := {
  netuid : Z;
  subnet_name : string;
  price : attr;
  tao_in : attr;
  tao_in_emission : attr;
}.

(** ** Whitelist selection: the loop of [select_best_from_whitelist] *)

Section Selection.

Variable whitelist : list Z.
Variables stake_amount min_liquidity_ratio : float.

(** The loop state: [(best_subnet, best_score)]. *)
Definition best : Type := option Subnet * float.

(** One iteration of [for s in subnets]; every [continue] leaves the
    state as it is, and an exception that no [except] clause of the body
    names leaves the loop.  The [log.debug] records are below the
    logger's level and are not part of the trace. *)
Definition select_step (st : best) (s : Subnet) : float_error + best :=
  let '(best_subnet, best_score) := st in
  if negb (bool_decide (netuid s ∈ whitelist)) then inr st else
  (* Check price *)
  match py_float (price s) with
  | inl _ => inr st                                  (* except Exception *)
  | inr price =>
    if Num.leb price 0 then inr st else
    (* Check liquidity *)
    match py_float (tao_in s) with
    | inl AttributeError | inl TypeError => inr st   (* the two named *)
    | inl e => inl e                                 (* not caught *)
    | inr tao_in_pool =>
      if Num.ltb tao_in_pool (Num.mul stake_amount min_liquidity_ratio)
      then inr st else
      (* Calculate score *)
      let score :=
        match py_float (tao_in_emission s) with
        | inr emission => Num.div emission price
        | inl _ => 0%float                           (* except Exception *)
        end in
      if Num.ltb best_score score then inr (Some s, score) else inr st
    end
  end.

Fixpoint select_from (st : best) (subnets : list Subnet) : float_error + best :=
  match subnets with
  | [] => inr st
  | s :: rest =>
      match select_step st s with
      | inl e => inl e
      | inr st' => select_from st' rest
      end
  end.

Definition select_loop (subnets : list Subnet) : float_error + best :=
  select_from (None, 0%float) subnets.

(** What [select_best_from_whitelist] does once the subnets are fetched:
    it returns [(best_subnet, None)] or [(None, message)], or the loop's
    exception escapes.  [if best_subnet] tests for [None]: a subnet record
    is a truthy object. *)
Definition select_result (subnets : list Subnet)
  : float_error + (option Subnet * option string) :=
  match select_loop subnets with
  | inl e => inl e
  | inr (Some best_subnet, _) => inr (Some best_subnet, None)
  | inr (None, _) => inr (None, Some "No eligible subnets in whitelist")
  end.

(** *** The filters and the score, as the specification words them *)

Definition in_whitelist (s : Subnet) : bool := bool_decide (netuid s ∈ whitelist).

Definition price_ok (s : Subnet) : bool :=
  match price s with Number p => Num.ltb 0 p | _ => false end.

Definition liquidity_readable (s : Subnet) : bool :=
  match tao_in s with Number _ => true | _ => false end.

Definition liquidity_sufficient (s : Subnet) : bool :=
  match tao_in s with
  | Number t => Num.leb (Num.mul stake_amount min_liquidity_ratio) t
  | _ => false
  end.

(** A candidate survives when it passes the four filters. *)
Definition survives (s : Subnet) : bool :=
  in_whitelist s && price_ok s && liquidity_readable s && liquidity_sufficient s.

(** emission / price, and 0 when the emission cannot be read. *)
Definition score (s : Subnet) : float :=
  match price s, tao_in_emission s with
  | Number p, Number e => Num.div e p
  | _, _ => 0%float
  end.

(** *** The tests of the loop, as the script makes them *)

(** The candidate reaches the conversion of its liquidity: it is
    whitelisted, its price converts and [price <= 0] is false. *)
Definition reaches_liquidity (s : Subnet) : bool :=
  in_whitelist s &&
  match price s with Number p => negb (Num.leb p 0) | _ => false end.

(** The candidate reaches the scoring: no [continue] is taken.  It
    differs from [survives] only on NaN, which fails every comparison. *)
Definition kept (s : Subnet) : bool :=
  reaches_liquidity s &&
  match tao_in s with
  | Number t => negb (Num.ltb t (Num.mul stake_amount min_liquidity_ratio))
  | _ => false
  end.

(** The exception of a conversion that the clause [except
    (AttributeError, TypeError)] lets through. *)
Definition uncaught (a : attr) : option float_error :=
  match py_float a with
  | inl AttributeError | inl TypeError | inr _ => None
  | inl e => Some e
  end.

(** The exception the iteration on a candidate raises, if any: its
    liquidity is reached and [float] rejects it with an exception other
    than the two the loop catches. *)
Definition raised (s : Subnet) : option float_error :=
  if reaches_liquidity s then uncaught (tao_in s) else None.

(** The candidate makes the loop raise. *)
Definition breaks (s : Subnet) : bool :=
  match raised s with Some _ => true | None => false end.

(** The iteration on a candidate that raises nothing: the candidate is
    adopted when it is kept and beats the incumbent score strictly. *)
Definition advance (st : best) (s : Subnet) : best :=
  if kept s && Num.ltb (snd st) (score s) then (Some s, score s) else st.

End Selection.

(** ** The liquidity gate: [check_liquidity] *)

Definition check_liquidity (subnet : Subnet) (stake_amount min_ratio : float)
  : float_error + (bool * float * string) :=
  match py_float (tao_in subnet) with
  | inl AttributeError | inl TypeError =>
      inr (false, 0%float, "Unable to determine pool liquidity")
  | inl e => inl e                                   (* not caught *)
  | inr tao_in_pool =>
      if Num.leb tao_in_pool 0 then
        inr (false, tao_in_pool, "Pool has zero liquidity")
      else
        let required := Num.mul stake_amount min_ratio in
        if Num.ltb tao_in_pool required then
          inr (false, tao_in_pool,
               "Pool: " +:+ Num.format_fixed 2 tao_in_pool +:+ " TAO < "
                 +:+ Num.format_fixed 2 required +:+ " TAO required")
        else inr (true, tao_in_pool, "OK")
  end.

(** The gate lets the stake through. *)
Definition passes (subnet : Subnet) (stake_amount min_ratio : float) : bool :=
  match check_liquidity subnet stake_amount min_ratio with
  | inr (liquidity_ok, _, _) => liquidity_ok
  | inl _ => false
  end.

(** ** Collaborators, events and the statement monad *)

#[local] Set Warnings "-register-all".

Inductive exn :=
| Exception (msg : string)            (* raised by a collaborator *)
| FloatError (e : float_error)        (* raised by [float(...)] *)
| RetryError (last_attempt : exn)     (* tenacity, after the last attempt *)
| ConnectionError (last_error : option exn).

Record Subtensor := { connected_to : string }.

Record Wallet := { name : string; coldkey_ss58_address : string }.

Record Config := {
  wallet_name : string;
  validator_hotkey : string;
  stake_amount : float;
  target_netuid : option Z;
  whitelist : list Z;
  min_liquidity_ratio : float;
  network : string;
  log_file : string;
  dry_run : bool;
}.

(** A value that [float(...)] is applied to when the configuration is
    loaded. *)
Inductive yaml_value :=
| YamlNumber (x : float)
| YamlOther.          (* a value [float(...)] rejects *)

(** The parsed YAML document, key by key; [None] when the key is absent
    (for [target_netuid] also when it is null).  Values are taken to have
    the type the [Config] field declares. *)
Record Yaml := {
  yaml_wallet_name : option string;
  yaml_validator_hotkey : option string;
  yaml_stake_amount : option yaml_value;
  yaml_target_netuid : option Z;
  yaml_whitelist : option (list Z);
  yaml_min_liquidity_ratio : option yaml_value;
  yaml_network : option string;
  yaml_log_file : option string;
  yaml_dry_run : option bool;
}.

(** What one try of [connect_with_retry] meets. *)
Inductive attempt :=
| CtorRaises (e : exn)       (* [bt.AsyncSubtensor(network=...)] raises *)
| LivenessRaises (e : exn)   (* [get_current_block()] raises *)
| Alive.

(** The answers of the outside world during one process run.
    [read_yaml] is [None] when the file does not exist and an exception
    when it cannot be opened or parsed, or holds no mapping.  [setup_log]
    is the exception that creating the log directory or opening the log
    file raises, if any.  [dial] is indexed by the network and tenacity's
    attempt number, which together identify a try.  [balance_of] answers
    [float(await subtensor.get_balance(...))]. *)
Record World := {
  read_yaml : string -> option (exn + Yaml);
  setup_log : string -> option exn;
  dial : string -> nat -> attempt;
  unlock_coldkey : string -> exn + Wallet;
  balance_of : Subtensor -> string -> exn + float;
  subnets_of : Subtensor -> exn + list Subnet;
  add_stake : Subtensor -> Wallet -> string -> Z -> float -> exn + bool;
}.

Inductive level := INFO | WARNING | ERROR.

(** One constructor per log call of the script, with the values its
    f-string interpolates. *)
Inductive message :=
| Connecting (network : string)
| Connected (network : string)
| FailedToConnect (network : string) (e : exn)
| ConnectionFailed (e : exn)
| WalletUnlocked (wallet_name : string)
| WalletUnlockFailed (e : exn)
| InsufficientBalance (balance need : float)
| WalletBalance (balance : float)
| FailedToCheckBalance (e : exn)
| TargetSubnet (netuid : Z)
| SubnetNotFound (netuid : Z)
| SelectingBest (whitelist : list Z)
| NoEligibleSubnets (error : option string)
| NoTargetOrWhitelist
| SubnetPrice (netuid : Z) (subnet_name : string) (price : float)
| InvalidPriceData
| LiquidityCheck (liquidity_msg : string)
| SkippingStake
| DryRunWouldStake (amount : float) (netuid : Z)
| ExecutingStake (amount : float) (netuid : Z)
| StakeSuccess (amount : float) (netuid : Z) (subnet_name : string)
| StakeReturnedFailure
| StakeFailed (e : exn)
| Banner
| StartingRun
| DryRunMode
| Finished (exit_code : Z).

Inductive event :=
| Log (lvl : level) (m : message)
| Stderr (e : exn)                               (* [print(..., file=sys.stderr)] *)
| ReadConfig (path : string)
| SetupLogging (log_file : string)
| NewSubtensor (network : string)
| GetCurrentBlock (network : string)
| UnlockColdkey (wallet_name : string)
| GetBalance (sub : Subtensor) (address : string)
| AllSubnets (sub : Subtensor)
| AddStake (sub : Subtensor) (netuid : Z) (amount : float)
| Close (sub : Subtensor).

(** How a statement completes inside a function that returns an [R]. *)
Inductive flow (R A : Type) :=
| Next (a : A)        (* control falls through, with a value *)
| Return (r : R)      (* [return r] *)
| Raise (e : exn).    (* an exception propagates *)
Arguments Next {R A} a.
Arguments Return {R A} r.
Arguments Raise {R A} e.

Definition M (R A : Type) : Type := flow R A * list event.

Definition next {R A} (a : A) : M R A := (Next a, []).
Definition ret {R A} (r : R) : M R A := (Return r, []).
Definition raise {R A} (e : exn) : M R A := (Raise e, []).
Definition emit {R} (ev : event) : M R unit := (Next tt, [ev]).
Definition log {R} (lvl : level) (m : message) : M R unit := emit (Log lvl m).

Definition bind {R A B} (m : M R A) (k : A -> M R B) : M R B :=
  match m with
  | (Next a, t) => let '(r, t') := k a in (r, t ++ t')
  | (Return r, t) => (Return r, t)
  | (Raise e, t) => (Raise e, t)
  end.

Notation "x <- m ;; k" := (bind m (fun x => k))
  (at level 100, m at next level, right associativity).
Notation "m ;;; k" := (bind m (fun _ => k))
  (at level 100, right associativity).

(** [try: m except Exception as e: handler e] *)
Definition try_except {R A} (m : M R A) (handler : exn -> M R A) : M R A :=
  match m with
  | (Raise e, t) => let '(r, t') := handler e in (r, t ++ t')
  | done => done
  end.

(** [try: m finally: cleanup] *)
Definition try_finally {R A} (m : M R A) (cleanup : list event) : M R A :=
  let '(r, t) := m in (r, t ++ cleanup).

(** A function body ends in [return] or in an exception. *)
Definition body (R : Type) : Type := M R Empty_set.

(** Calling a function: its return value becomes the value of the call. *)
Definition call {R R'} (f : body R) : M R' R :=
  match f with
  | (Return r, t) => (Next r, t)
  | (Raise e, t) => (Raise e, t)
  | (Next v, _) => match v with end
  end.

(** A collaborator's answer, with the event that records the call. *)
Definition ask {R A} (ev : event) (answer : exn + A) : M R A :=
  match answer with
  | inl e => (Raise e, [ev])
  | inr a => (Next a, [ev])
  end.

(** The value of a call that touches no collaborator, or the exception
    [float(...)] raised inside it. *)
Definition pure_call {R A} (result : float_error + A) : M R A :=
  match result with
  | inl e => raise (FloatError e)
  | inr a => next a
  end.

(** ** Configuration: [load_config] *)

(** [data.get(key, default)] *)
Definition get_or {A} (value : option A) (default : A) : A :=
  match value with
  | Some v => v
  | None => default
  end.

(** [float(v)] on a configuration value. *)
Definition yaml_float {R} (v : yaml_value) : M R float :=
  match v with
  | YamlNumber x => next x
  | YamlOther => raise (Exception "could not convert to float")
  end.

Definition load_config (w : World) (config_path : string) : body Config :=
  data <- match read_yaml w config_path with
          | None =>
              emit (ReadConfig config_path) ;;;
              raise (Exception ("Config file not found: " +:+ config_path))
          | Some answer => ask (ReadConfig config_path) answer
          end ;;
  (* Required fields *)
  match yaml_wallet_name data, yaml_validator_hotkey data, yaml_stake_amount data with
  | None, _, _ => raise (Exception "Config missing required field: wallet_name")
  | Some _, None, _ =>
      raise (Exception "Config missing required field: validator_hotkey")
  | Some _, Some _, None =>
      raise (Exception "Config missing required field: stake_amount")
  | Some name, Some hotkey, Some amount =>
      stake <- yaml_float amount ;;
      ratio <- yaml_float (get_or (yaml_min_liquidity_ratio data) (YamlNumber 10)) ;;
      ret {| wallet_name := name;
             validator_hotkey := hotkey;
             stake_amount := stake;
             target_netuid := yaml_target_netuid data;
             whitelist := get_or (yaml_whitelist data) [];
             min_liquidity_ratio := ratio;
             network := get_or (yaml_network data) "finney";
             log_file := get_or (yaml_log_file data) "logs/dca.log";
             dry_run := get_or (yaml_dry_run data) false |}
  end.

(** ** Connection: [connect_with_retry] and [connect_to_bittensor] *)

Definition FALLBACK_NETWORKS : list string := ["finney"; "subvortex"; "archive"].

(** tenacity's [@retry(stop=stop_after_attempt(n))]: run the function;
    when it raises and fewer than [n] attempts were made, run it again;
    otherwise raise [RetryError].  The waits between attempts take time
    and leave no event. *)
Fixpoint retry_loop {R} (more : nat) (attempt_number : nat)
    (f : nat -> body R) : body R :=
  try_except (f attempt_number) (fun e =>
    match more with
    | O => raise (RetryError e)
    | S more' => retry_loop more' (S attempt_number) f
    end).

Definition retry_stop_after_attempt {R} (n : nat) (f : nat -> body R) : body R :=
  retry_loop (n - 1) 1 f.

(** The body of [connect_with_retry], at a given attempt. *)
Definition connect_attempt (w : World) (network : string) (attempt_number : nat)
  : body Subtensor :=
  sub <- ask (NewSubtensor network)
           (match dial w network attempt_number with
            | CtorRaises e => inl e
            | _ => inr {| connected_to := network |}
            end) ;;
  (* Test connection *)
  ask (GetCurrentBlock network)
      (match dial w network attempt_number with
       | LivenessRaises e => inl e
       | _ => inr tt
       end) ;;;
  ret sub.

Definition connect_with_retry (w : World) (network : string) : body Subtensor :=
  retry_stop_after_attempt 3 (connect_attempt w network).

Definition networks_to_try (primary_network : string) : list string :=
  [primary_network]
    ++ filter (fun n => n <> primary_network) FALLBACK_NETWORKS.

(** [for network in networks_to_try], threading [last_error]. *)
Fixpoint connect_loop (w : World) (networks : list string) (last_error : option exn)
  : M Subtensor (option exn) :=
  match networks with
  | [] => next last_error
  | network :: rest =>
      last_error' <-
        try_except
          (log INFO (Connecting network) ;;;
           sub <- call (connect_with_retry w network) ;;
           log INFO (Connected network) ;;;
           ret sub)
          (fun e =>
             log WARNING (FailedToConnect network e) ;;;
             next (Some e)) ;;
      connect_loop w rest last_error'
  end.

Definition connect_to_bittensor (w : World) (primary_network : string)
  : body Subtensor :=
  last_error <- connect_loop w (networks_to_try primary_network) None ;;
  raise (ConnectionError last_error).

(** ** Wallet, subnet lookup, staking *)

(** Password retrieval and decryption of the coldkey are one answer of
    the world. *)
Definition unlock_wallet (w : World) (wallet_name : string) : body Wallet :=
  wallet <- ask (UnlockColdkey wallet_name) (unlock_coldkey w wallet_name) ;;
  log INFO (WalletUnlocked wallet_name) ;;;
  ret wallet.

Definition get_subnet_by_netuid (w : World) (subtensor : Subtensor) (target : Z)
  : body (option Subnet) :=
  subnets <- ask (AllSubnets subtensor) (subnets_of w subtensor) ;;
  (* the first [s] with [s.netuid == netuid], else [None] *)
  ret (find (fun s => bool_decide (netuid s = target)) subnets).

Definition select_best_from_whitelist (w : World) (subtensor : Subtensor)
    (whitelist : list Z) (stake_amount min_liquidity_ratio : float)
  : body (option Subnet * option string) :=
  subnets <- ask (AllSubnets subtensor) (subnets_of w subtensor) ;;
  result <- pure_call (select_result whitelist stake_amount min_liquidity_ratio
                         subnets) ;;
  ret result.

Definition execute_stake (w : World) (subtensor : Subtensor) (wallet : Wallet)
    (validator_hotkey : string) (netuid : Z) (amount : float) : body bool :=
  log INFO (ExecutingStake amount netuid) ;;;
  result <- ask (AddStake subtensor netuid amount)
              (add_stake w subtensor wallet validator_hotkey netuid amount) ;;
  ret result.

(** ** The orchestrator: [run] *)

(** The statements of [run] inside its outer [try: ... finally:], block
    by block as the script's comments divide them. *)

(** [# Unlock wallet] *)
Definition unlock_block (w : World) (config : Config) : M Z Wallet :=
  try_except
    (call (unlock_wallet w (wallet_name config)))
    (fun e => log ERROR (WalletUnlockFailed e) ;;; ret 1).

(** [# Check wallet balance] *)
Definition balance_block (w : World) (config : Config) (subtensor : Subtensor)
    (wallet : Wallet) : M Z unit :=
  try_except
    (balance <- ask (GetBalance subtensor (coldkey_ss58_address wallet))
                  (balance_of w subtensor (coldkey_ss58_address wallet)) ;;
     if Num.ltb balance (Num.add (stake_amount config) 0.01) then  (* +0.01 for fees *)
       log ERROR (InsufficientBalance balance
                    (Num.add (stake_amount config) 0.01)) ;;;
       ret 1
     else
       log INFO (WalletBalance balance))
    (fun e => log ERROR (FailedToCheckBalance e) ;;; ret 1).

(** [# Get target subnet].  [if not subnet] tests for [None]: a subnet
    record is a truthy object. *)
Definition target_block (w : World) (config : Config) (subtensor : Subtensor)
  : M Z Subnet :=
  match target_netuid config with
  | Some target =>
      (* Single subnet mode *)
      log INFO (TargetSubnet target) ;;;
      found <- call (get_subnet_by_netuid w subtensor target) ;;
      match found with
      | None => log ERROR (SubnetNotFound target) ;;; ret 1
      | Some subnet => next subnet
      end
  | None =>
      match whitelist config with
      | _ :: _ =>
          (* Whitelist mode - select best *)
          log INFO (SelectingBest (whitelist config)) ;;;
          selected <- call (select_best_from_whitelist w subtensor
                              (whitelist config) (stake_amount config)
                              (min_liquidity_ratio config)) ;;
          match selected with
          | (None, error) =>
              log WARNING (NoEligibleSubnets error) ;;; ret 0  (* Graceful exit *)
          | (Some subnet, _) => next subnet
          end
      | [] => log ERROR NoTargetOrWhitelist ;;; ret 1
      end
  end.

(** [# Log subnet info] *)
Definition price_block (subnet : Subnet) : M Z unit :=
  try_except
    (price <- pure_call (py_float (price subnet)) ;;
     log INFO (SubnetPrice (netuid subnet) (subnet_name subnet) price))
    (fun _ => log ERROR InvalidPriceData ;;; ret 1).

(** [# Check liquidity] and [# Execute stake (or dry run)].  The call of
    [check_liquidity] stands outside every [try] but the outer one. *)
Definition stake_block (w : World) (config : Config) (subtensor : Subtensor)
    (wallet : Wallet) (subnet : Subnet) : body Z :=
  checked <- pure_call (check_liquidity subnet (stake_amount config)
                          (min_liquidity_ratio config)) ;;
  let '(liquidity_ok, tao_in_pool, liquidity_msg) := checked in
  log INFO (LiquidityCheck liquidity_msg) ;;;
  if negb liquidity_ok then
    log WARNING SkippingStake ;;; ret 0  (* Graceful exit *)
  else
  if dry_run config then
    log INFO (DryRunWouldStake (stake_amount config) (netuid subnet)) ;;; ret 0
  else
  try_except
    (success <- call (execute_stake w subtensor wallet (validator_hotkey config)
                        (netuid subnet) (stake_amount config)) ;;
     if (success : bool) then
       log INFO (StakeSuccess (stake_amount config) (netuid subnet)
                   (subnet_name subnet)) ;;;
       ret 0
     else
       log ERROR StakeReturnedFailure ;;; ret 1)
    (fun e => log ERROR (StakeFailed e) ;;; ret 1).

Definition run_guarded (w : World) (config : Config) (subtensor : Subtensor)
  : body Z :=
  wallet <- unlock_block w config ;;
  balance_block w config subtensor wallet ;;;
  subnet <- target_block w config subtensor ;;
  price_block subnet ;;;
  stake_block w config subtensor wallet subnet.

Definition run (w : World) (config : Config) : body Z :=
  (* Connect to Bittensor *)
  subtensor <- try_except
                 (call (connect_to_bittensor w (network config)))
                 (fun e =>
                    match e with
                    | ConnectionError _ =>
                        log ERROR (ConnectionFailed e) ;;; ret 1
                    | _ => raise e
                    end) ;;
  try_finally (run_guarded w config subtensor) [Close subtensor].

(** ** The entry point: [main] and the process exit status *)

(** The parsed command line: [--config] and [--dry-run]. *)

Record Args := { config_path : string; cli_dry_run : bool }.

Definition with_dry_run (config : Config) : Config :=
  {| wallet_name := wallet_name config;
     validator_hotkey := validator_hotkey config;
     stake_amount := stake_amount config;
     target_netuid := target_netuid config;
     whitelist := whitelist config;
     min_liquidity_ratio := min_liquidity_ratio config;
     network := network config;
     log_file := log_file config;
     dry_run := true |}.


(** [setup_logging]: the directory is created and the log file opened in
    append mode; from then on the two handlers are the trace. *)
Definition setup_logging (w : World) (log_file : string) : body unit :=
  ask (SetupLogging log_file)
      (match setup_log w log_file with
       | Some e => inl e
       | None => inr tt
       end) ;;;
  ret tt.

Definition main (w : World) (args : Args) : body Z :=
  (* Load config *)
  loaded <- try_except
              (call (load_config w (config_path args)))
              (fun e => emit (Stderr e) ;;; ret 1) ;;
  (* Override dry_run from CLI if specified *)
  let config := if cli_dry_run args then with_dry_run loaded else loaded in
  (* Setup logging *)
  call (setup_logging w (log_file config)) ;;;
  log INFO Banner ;;;
  log INFO StartingRun ;;;
  (if dry_run config then log INFO DryRunMode else next tt) ;;;
  exit_code <- call (run w config) ;;
  log INFO (Finished exit_code) ;;;
  ret exit_code.

(** [sys.exit(main())]: the returned code, or 1 when an exception reaches
    the interpreter's top level. *)
Definition status (completion : flow Z Empty_set) : Z :=
  match completion with
  | Return code => code
  | Raise _ => 1
  | Next v => match v with end
  end.

Definition exit_status (m : body Z) : Z := status (fst m).

Definition trace_of {R A} (m : M R A) : list event := snd m.

(** ** Reading a trace *)

(** The networks a client was constructed for, in order: one entry per
    connection try. *)
Fixpoint opens (t : list event) : list string :=
  match t with
  | [] => []
  | NewSubtensor network :: t' => network :: opens t'
  | _ :: t' => opens t'
  end.

(** The networks announced by "Connecting to ...", in order. *)
Fixpoint connecting (t : list event) : list string :=
  match t with
  | [] => []
  | Log INFO (Connecting network) :: t' => network :: connecting t'
  | _ :: t' => connecting t'
  end.

(** The number of connection tries made against one network. *)
Definition tries_on (network : string) (t : list event) : nat :=
  length (filter (eq network) (opens t)).

(** How often the connection's [close()] was awaited. *)
Fixpoint closes (t : list event) : nat :=
  match t with
  | [] => O
  | Close _ :: t' => S (closes t')
  | _ :: t' => closes t'
  end.

(** The fetches of the candidate set. *)
Fixpoint fetches (t : list event) : nat :=
  match t with
  | [] => O
  | AllSubnets _ :: t' => S (fetches t')
  | _ :: t' => fetches t'
  end.

(** The submissions of a stake. *)
Fixpoint stakes (t : list event) : nat :=
  match t with
  | [] => O
  | AddStake _ _ _ :: t' => S (stakes t')
  | _ :: t' => stakes t'
  end.

(** The "Skipping stake due to insufficient liquidity" warnings. *)
Fixpoint skips (t : list event) : nat :=
  match t with
  | [] => O
  | Log WARNING SkippingStake :: t' => S (skips t')
  | _ :: t' => skips t'
  end.

(** The events of the connection phase. *)
Definition connection_phase (ev : event) : Prop :=
  match ev with
  | NewSubtensor _ | GetCurrentBlock _
  | Log INFO (Connecting _) | Log INFO (Connected _)
  | Log WARNING (FailedToConnect _ _) => True
  | _ => False
  end.

(** The exception a connection try ends with, if any. *)
Definition attempt_error (a : attempt) : option exn :=
  match a with
  | CtorRaises e | LivenessRaises e => Some e
  | Alive => None
  end.

(** ** The specification's wording of the fallback order *)

(** The preferred network, then the declared fallback list without any
    duplicate of the preferred network. *)
Definition spec_fallback_order (preferred : string) : list string :=
  preferred :: list_difference ["finney"; "subvortex"; "archive"] [preferred].

(** Each network of the list tried three times before the next one. *)
Definition three_tries_each (networks : list string) : list string :=
  networks ≫= replicate 3.

(** ** The specification's outcome classes *)

Inductive Outcome := Success | GracefulSkip | Failure.

(** Exit code 0 for Success or GracefulSkip, 1 for any Failure. *)
Definition spec_exit_code (o : Outcome) : Z :=
  match o with
  | Success | GracefulSkip => 0
  | Failure => 1
  end.

(** The decisions inside the orchestrator's steps 5 to 7.  A decision
    that gives no answer stands for an error that nothing handles. *)
Record Contract := {
  (* a target id together with a non-empty whitelist is a configuration
     error *)
  both_is_error : bool;
  (* step 5, whitelist mode: the chosen candidate, if any *)
  select : list Z -> float -> float -> list Subnet -> option (option Subnet);
  (* step 6: the candidate's price is valid *)
  valid_price : Subnet -> bool;
  (* step 7: the safety validator's verdict *)
  verdict : Subnet -> float -> float -> option bool;
}.

Section Outcome.

Variable contract : Contract.

(** Steps 6 to 9, on the resolved candidate: an invalid price is a
    Failure, a failed liquidity check a GracefulSkip, a dry run a
    Success, and the stake call decides the rest. *)
Definition gate_outcome (w : World) (config : Config) (subtensor : Subtensor)
    (wallet : Wallet) (subnet : Subnet) : Outcome :=
  if negb (valid_price contract subnet) then Failure else
  match verdict contract subnet (stake_amount config)
          (min_liquidity_ratio config) with
  | None => Failure
  | Some false => GracefulSkip
  | Some true =>
      if dry_run config then Success
      else match add_stake w subtensor wallet (validator_hotkey config)
                   (netuid subnet) (stake_amount config) with
           | inr true => Success
           | inr false | inl _ => Failure                (* execution error *)
           end
  end.

(** Step 5: the resolution of the candidate, by explicit id or from the
    whitelist. *)
Definition resolution_outcome (w : World) (config : Config)
    (subtensor : Subtensor) (wallet : Wallet) : Outcome :=
  match target_netuid config, whitelist config with
  | None, [] => Failure                                  (* config error *)
  | Some target, wl =>
      if both_is_error contract && bool_decide (wl <> []) then Failure else
      match subnets_of w subtensor with
      | inl _ => Failure                                 (* resolution failure *)
      | inr subnets =>
          match find (fun s => bool_decide (netuid s = target)) subnets with
          | None => Failure                              (* target id not found *)
          | Some subnet => gate_outcome w config subtensor wallet subnet
          end
      end
  | None, _ :: _ =>
      match subnets_of w subtensor with
      | inl _ => Failure                                 (* resolution failure *)
      | inr subnets =>
          match select contract (whitelist config) (stake_amount config)
                  (min_liquidity_ratio config) subnets with
          | None => Failure
          | Some None => GracefulSkip                    (* no eligible candidate *)
          | Some (Some subnet) => gate_outcome w config subtensor wallet subnet
          end
      end
  end.

(** Steps 3 and 4, once a connection is established: unlocking the
    signer and the balance. *)
Definition connected_outcome (w : World) (config : Config)
    (subtensor : Subtensor) : Outcome :=
  match unlock_coldkey w (wallet_name config) with
  | inl _ => Failure                                     (* wallet error *)
  | inr wallet =>
      match balance_of w subtensor (coldkey_ss58_address wallet) with
      | inl _ => Failure
      | inr balance =>
          if Num.ltb balance (Num.add (stake_amount config) 0.01)
          then Failure                                   (* insufficient balance *)
          else resolution_outcome w config subtensor wallet
      end
  end.

(** Step 1: no connection is a Failure. *)
Definition run_outcome (w : World) (config : Config) : Outcome :=
  match fst (connect_to_bittensor w (network config)) with
  | Return subtensor => connected_outcome w config subtensor
  | _ => Failure                                         (* connection error *)
  end.

(** The whole process: a configuration that cannot be loaded and a log
    that cannot be opened are Failures. *)
Definition outcome (w : World) (args : Args) : Outcome :=
  match fst (load_config w (config_path args)) with
  | Return loaded =>
      let config := if cli_dry_run args then with_dry_run loaded else loaded in
      match setup_log w (log_file config) with
      | Some _ => Failure
      | None => run_outcome w config
      end
  | _ => Failure                                         (* config error *)
  end.

End Outcome.

(** *** The decisions as the specification words them *)

(** The best of the candidates that survive the filters: the running
    best is replaced on a strictly greater score only. *)
Definition spec_select (whitelist : list Z) (stake_amount min_liquidity_ratio : float)
    (subnets : list Subnet) : option Subnet :=
  fold_left
    (fun incumbent s =>
       match incumbent with
       | None => Some s
       | Some b => if Num.ltb (score b) (score s) then Some s else incumbent
       end)
    (List.filter (survives whitelist stake_amount min_liquidity_ratio) subnets)
    None.

(** Rules (a) to (d) of the safety validator. *)
Definition spec_liquidity_ok (subnet : Subnet) (stake_amount min_ratio : float)
  : bool :=
  match tao_in subnet with
  | Number liquidity =>
      if Num.leb liquidity 0 then false
      else if Num.ltb liquidity (Num.mul stake_amount min_ratio) then false
      else true
  | _ => false                                           (* unavailable *)
  end.

Definition spec_contract : Contract :=
  {| both_is_error := true;
     select := fun wl stake ratio subnets =>
                 Some (spec_select wl stake ratio subnets);
     valid_price := price_ok;                  (* a positive parsable number *)
     verdict := fun subnet stake ratio =>
                  Some (spec_liquidity_ok subnet stake ratio) |}.

Definition spec_outcome : World -> Args -> Outcome := outcome spec_contract.

(** *** The decisions as the script takes them *)

Definition script_contract : Contract :=
  {| both_is_error := false;
     select := fun wl stake ratio subnets =>
                 match select_result wl stake ratio subnets with
                 | inl _ => None
                 | inr (chosen, _) => Some chosen
                 end;
     valid_price := fun subnet =>
                      match py_float (price subnet) with
                      | inl _ => false
                      | inr _ => true
                      end;
     verdict := fun subnet stake ratio =>
                  match check_liquidity subnet stake ratio with
                  | inl _ => None
                  | inr (ok, _, _) => Some ok
                  end |}.

Definition script_outcome : World -> Args -> Outcome := outcome script_contract.

(** ** Wallet password: [get_wallet_password] *)

(** Where the password can come from: the environment variable
    [WALLET_PASSWORD] ([None] when it is not set) and the file
    [~/.bittensor/.wallet_password]: [None] when it does not exist, else
    its text or the exception that reading it raises. *)
Record Secrets := {
  env_WALLET_PASSWORD : option string;
  password_file : option (exn + string);
}.

Section Password.

(** Python's [str.strip()], which the script applies to the file's text. *)
Variable strip : string -> string.

Definition get_wallet_password (secrets : Secrets) : exn + string :=
  (* Try environment variable first *)
  match env_WALLET_PASSWORD secrets with
  | Some (String c rest) => inr (String c rest)     (* [if password:] holds *)
  | Some EmptyString | None =>
      (* Try password file *)
      match password_file secrets with
      | Some (inr text) => inr (strip text)
      | Some (inl e) => inl e                       (* [read_text()] raises *)
      | None =>
          inl (Exception "Wallet password not found. Either:
  1. Set WALLET_PASSWORD environment variable, or
  2. Create ~/.bittensor/.wallet_password file")
      end
  end.

End Password.

(** ** More readings of a trace *)

(** The stake submissions, each with its netuid and amount. *)
Definition stake_of (ev : event) : option (Z * float) :=
  match ev with
  | AddStake _ uid amount => Some (uid, amount)
  | _ => None
  end.

Definition staked (t : list event) : list (Z * float) := omap stake_of t.

(** The wallets whose coldkey the run tried to unlock. *)
Definition unlock_of (ev : event) : option string :=
  match ev with
  | UnlockColdkey wallet_name => Some wallet_name
  | _ => None
  end.

Definition unlocked (t : list event) : list string := omap unlock_of t.

(** The addresses whose balance was read. *)
Definition balance_read_of (ev : event) : option string :=
  match ev with
  | GetBalance _ address => Some address
  | _ => None
  end.

Definition balances_read (t : list event) : list string := omap balance_read_of t.

(** The networks given up with a "Failed to connect to ..." warning. *)
Definition given_up_of (ev : event) : option string :=
  match ev with
  | Log WARNING (FailedToConnect network _) => Some network
  | _ => None
  end.

Definition given_up (t : list event) : list string := omap given_up_of t.

(** Everything the logger received. *)
Definition log_of (ev : event) : option (level * message) :=
  match ev with
  | Log lvl m => Some (lvl, m)
  | _ => None
  end.

Definition logged (t : list event) : list (level * message) := omap log_of t.

(** The records logged at level ERROR. *)
Fixpoint errors (t : list event) : nat :=
  match t with
  | [] => O
  | Log ERROR _ :: t' => S (errors t')
  | _ :: t' => errors t'
  end.

(** The first try, among the three, on which a network answers. *)
Definition first_answer (w : World) (network : string) : option nat :=
  match dial w network 1, dial w network 2, dial w network 3 with
  | Alive, _, _ => Some 1%nat
  | _, Alive, _ => Some 2%nat
  | _, _, Alive => Some 3%nat
  | _, _, _ => None
  end.

(** ** Sample data *)

Module Sample.

Definition subnet (uid : Z) (nm : string) (p t e : attr) : Subnet :=
  {| netuid := uid; subnet_name := nm; price := p; tao_in := t;
     tao_in_emission := e |}.

(** Two pools with ample liquidity whose emission cannot be read. *)
Definition quiet : Subnet := subnet 1 "quiet" (Number 1) (Number 100) Absent.
Definition quiet2 : Subnet := subnet 2 "quiet2" (Number 1) (Number 100) Absent.

(** A pool with ample liquidity and an emission of zero. *)
Definition dormant : Subnet := subnet 4 "dormant" (Number 1) (Number 100) (Number 0).

(** Two pools with the same emission and the same price. *)
Definition alpha : Subnet := subnet 1 "alpha" (Number 1) (Number 100) (Number 2).
Definition beta : Subnet := subnet 2 "beta" (Number 1) (Number 100) (Number 2).

(** A pool that scores higher than [alpha] and [beta]. *)
Definition gamma : Subnet := subnet 3 "gamma" (Number 1) (Number 100) (Number 3).

(** Two pools whose quotients are one and the same double. *)
Definition third : Subnet :=
  subnet 1 "third" (Number 1) (Number 100) (Number 0.3333333333333333).
Definition thirds : Subnet := subnet 2 "thirds" (Number 3) (Number 100) (Number 1).

(** A pool too shallow for a stake of 1 at ratio 10. *)
Definition shallow : Subnet := subnet 5 "shallow" (Number 0.02) (Number 5) (Number 9).

(** A pool without liquidity. *)
Definition drained : Subnet := subnet 6 "drained" (Number 1) (Number 0) (Number 1).

(** A pool whose liquidity is a text that is no number. *)
Definition garbled : Subnet :=
  subnet 8 "garbled" (Number 1) (Text "n/a") (Number 1).

(** Another one, and a pool whose liquidity is an integer too large for
    a float. *)
Definition garbled2 : Subnet :=
  subnet 10 "garbled2" (Number 1) (Text "unknown") (Number 1).
Definition oversized : Subnet :=
  subnet 11 "oversized" (Number 1) TooLarge (Number 1).

(** The pools of the specification's end-to-end scenarios. *)
Definition pool5 : Subnet := subnet 5 "five" (Number 0.02) (Number 100) (Number 1).
Definition pool3 : Subnet := subnet 3 "three" (Number 1) (Number 5) (Number 1000).
Definition pool7 : Subnet := subnet 7 "seven" (Number 1) (Number 50) (Number 1).
Definition pool9 : Subnet := subnet 9 "nine" (Number 0) (Number 100) (Number 1).

(** A chain client that answers on the first try. *)
Definition always_up : string -> nat -> attempt := fun _ _ => Alive.

(** A chain client whose liveness call fails on every try. *)
Definition never_up : string -> nat -> attempt :=
  fun network k => LivenessRaises (Exception ("no block from " +:+ network)).

Definition wallet : Wallet :=
  {| name := "cold"; coldkey_ss58_address := "5Fcold" |}.

(** The configuration file that loads as [cfg]. *)
Definition yaml_of (cfg : Config) : Yaml :=
  {| yaml_wallet_name := Some (wallet_name cfg);
     yaml_validator_hotkey := Some (validator_hotkey cfg);
     yaml_stake_amount := Some (YamlNumber (stake_amount cfg));
     yaml_target_netuid := target_netuid cfg;
     yaml_whitelist := Some (whitelist cfg);
     yaml_min_liquidity_ratio := Some (YamlNumber (min_liquidity_ratio cfg));
     yaml_network := Some (network cfg);
     yaml_log_file := Some (log_file cfg);
     yaml_dry_run := Some (dry_run cfg) |}.

(** A configuration file without the required [stake_amount]. *)
Definition yaml_without_stake : Yaml :=
  {| yaml_wallet_name := Some "cold";
     yaml_validator_hotkey := Some "5Fvalidator";
     yaml_stake_amount := None;
     yaml_target_netuid := Some 1;
     yaml_whitelist := None;
     yaml_min_liquidity_ratio := None;
     yaml_network := None;
     yaml_log_file := None;
     yaml_dry_run := None |}.

(** A world with the given connection behaviour, subnets, balance and
    answer of the stake call; the file loads as [cfg], the log opens and
    the wallet unlocks. *)
Definition world (conn : string -> nat -> attempt) (subnets : list Subnet)
    (balance : float) (staked : exn + bool) (cfg : Config) : World :=
  {| read_yaml := fun _ => Some (inr (yaml_of cfg));
     setup_log := fun _ => None;
     dial := conn;
     unlock_coldkey := fun _ => inr wallet;
     balance_of := fun _ _ => inr balance;
     subnets_of := fun _ => inr subnets;
     add_stake := fun _ _ _ _ _ => staked |}.

(** The same world on a file system where the log cannot be opened. *)
Definition without_log (w : World) : World :=
  {| read_yaml := read_yaml w;
     setup_log := fun _ => Some (Exception "Permission denied");
     dial := dial w;
     unlock_coldkey := unlock_coldkey w;
     balance_of := balance_of w;
     subnets_of := subnets_of w;
     add_stake := add_stake w |}.

Definition config_of (stake ratio : float) (target : option Z) (wl : list Z)
    (dry : bool) : Config :=
  {| wallet_name := "cold";
     validator_hotkey := "5Fvalidator";
     stake_amount := stake;
     target_netuid := target;
     whitelist := wl;
     min_liquidity_ratio := ratio;
     network := "finney";
     log_file := "logs/dca.log";
     dry_run := dry |}.

(** A stake of 1 at the default ratio of 10. *)
Definition config : option Z -> list Z -> bool -> Config := config_of 1 10.

Definition args : Args := {| config_path := "config.yaml"; cli_dry_run := false |}.

End Sample.

(** * Facts *)

(** ** The order of floats *)

Lemma SFcompare_rank (x y : spec_float) :
  match SFcompare x y with
  | Some Lt => exists a b, Num.rank x = Some a /\ Num.rank y = Some b /\ Num.lex_lt a b
  | Some Eq => exists a b, Num.rank x = Some a /\ Num.rank y = Some b /\
                           Num.lex_le a b /\ Num.lex_le b a
  | Some Gt => exists a b, Num.rank x = Some a /\ Num.rank y = Some b /\ Num.lex_lt b a
  | None => Num.rank x = None \/ Num.rank y = None
  end.
Proof.
  destruct x as [sx|sx| |sx mx ex], y as [sy|sy| |sy my ey]; simpl; auto;
    try destruct sx; try destruct sy; simpl;
    try (eexists _, _; split; [reflexivity|]; split; [reflexivity|]; simpl; lia).
  - destruct (Z.compare_spec ex ey).
    + subst. change (Pos.compare_cont Eq mx my) with (Pos.compare mx my).
      destruct (Pos.compare_spec mx my); simpl;
        eexists _, _; (split; [reflexivity|]); (split; [reflexivity|]); simpl; lia.
    + eexists _, _; (split; [reflexivity|]); (split; [reflexivity|]); simpl; lia.
    + eexists _, _; (split; [reflexivity|]); (split; [reflexivity|]); simpl; lia.
  - destruct (Z.compare_spec ex ey).
    + subst. change (Pos.compare_cont Eq mx my) with (Pos.compare mx my).
      destruct (Pos.compare_spec mx my); simpl;
        eexists _, _; (split; [reflexivity|]); (split; [reflexivity|]); simpl; lia.
    + eexists _, _; (split; [reflexivity|]); (split; [reflexivity|]); simpl; lia.
    + eexists _, _; (split; [reflexivity|]); (split; [reflexivity|]); simpl; lia.
Qed.

(** [a < b] holds exactly when neither is NaN and the rank of [a] is
    below the rank of [b]. *)
Lemma ltb_key (x y : float) :
  Num.ltb x y = true <->
  exists a b, Num.key x = Some a /\ Num.key y = Some b /\ Num.lex_lt a b.
Proof.
  unfold Num.ltb, Num.key. rewrite FloatAxioms.ltb_spec. unfold SFltb.
  pose proof (SFcompare_rank (Prim2SF x) (Prim2SF y)) as H.
  destruct (SFcompare (Prim2SF x) (Prim2SF y)) as [[| |]|].
  - split; [discriminate|]. intros (a & b & Ha & Hb & Hlt).
    destruct H as (a' & b' & Ha' & Hb' & H1 & H2).
    rewrite Ha in Ha'. rewrite Hb in Hb'. injection Ha' as <-. injection Hb' as <-.
    destruct a as [[? ?] ?], b as [[? ?] ?]. simpl in *. lia.
  - split; auto.
  - split; [discriminate|]. intros (a & b & Ha & Hb & Hlt).
    destruct H as (a' & b' & Ha' & Hb' & H1).
    rewrite Ha in Ha'. rewrite Hb in Hb'. injection Ha' as <-. injection Hb' as <-.
    destruct a as [[? ?] ?], b as [[? ?] ?]. simpl in *. lia.
  - split; [discriminate|]. intros (a & b & Ha & Hb & Hlt).
    destruct H as [H | H]; congruence.
Qed.

Lemma leb_key (x y : float) :
  Num.leb x y = true <->
  exists a b, Num.key x = Some a /\ Num.key y = Some b /\ Num.lex_le a b.
Proof.
  unfold Num.leb, Num.key. rewrite FloatAxioms.leb_spec. unfold SFleb.
  pose proof (SFcompare_rank (Prim2SF x) (Prim2SF y)) as H.
  destruct (SFcompare (Prim2SF x) (Prim2SF y)) as [[| |]|].
  - split; auto. intros _. destruct H as (a & b & Ha & Hb & H1 & H2). eauto.
  - split; auto. intros _. destruct H as (a & b & Ha & Hb & H1).
    exists a, b. repeat split; auto.
    destruct a as [[? ?] ?], b as [[? ?] ?]. simpl in *. lia.
  - split; [discriminate|]. intros (a & b & Ha & Hb & Hle).
    destruct H as (a' & b' & Ha' & Hb' & H1).
    rewrite Ha in Ha'. rewrite Hb in Hb'. injection Ha' as <-. injection Hb' as <-.
    destruct a as [[? ?] ?], b as [[? ?] ?]. simpl in *. lia.
  - split; [discriminate|]. intros (a & b & Ha & Hb & Hlt).
    destruct H as [H | H]; congruence.
Qed.

Lemma eqb_key (x y : float) :
  Num.eqb x y = true <->
  exists a b, Num.key x = Some a /\ Num.key y = Some b /\
              Num.lex_le a b /\ Num.lex_le b a.
Proof.
  unfold Num.eqb, Num.key. rewrite FloatAxioms.eqb_spec. unfold SFeqb.
  pose proof (SFcompare_rank (Prim2SF x) (Prim2SF y)) as H.
  destruct (SFcompare (Prim2SF x) (Prim2SF y)) as [[| |]|].
  - split; auto.
  - split; [discriminate|]. intros (a & b & Ha & Hb & Hle & Hge).
    destruct H as (a' & b' & Ha' & Hb' & H1).
    rewrite Ha in Ha'. rewrite Hb in Hb'. injection Ha' as <-. injection Hb' as <-.
    destruct a as [[? ?] ?], b as [[? ?] ?]. simpl in *. lia.
  - split; [discriminate|]. intros (a & b & Ha & Hb & Hle & Hge).
    destruct H as (a' & b' & Ha' & Hb' & H1).
    rewrite Ha in Ha'. rewrite Hb in Hb'. injection Ha' as <-. injection Hb' as <-.
    destruct a as [[? ?] ?], b as [[? ?] ?]. simpl in *. lia.
  - split; [discriminate|]. intros (a & b & Ha & Hb & Hlt).
    destruct H as [H | H]; congruence.
Qed.

(** Brings every comparison of floats among the hypotheses and in the
    goal to the ranks of its operands and decides by arithmetic. *)
Ltac float_order :=
  repeat match goal with
  | H : Num.ltb _ _ = true |- _ =>
      apply ltb_key in H; destruct H as (? & ? & ? & ? & H)
  | H : Num.leb _ _ = true |- _ =>
      apply leb_key in H; destruct H as (? & ? & ? & ? & H)
  | H : Num.eqb _ _ = true |- _ =>
      apply eqb_key in H; destruct H as (? & ? & ? & ? & H & ?)
  | H : Num.ltb _ _ = false |- _ =>
      apply not_true_iff_false in H; rewrite ltb_key in H
  | H : Num.leb _ _ = false |- _ =>
      apply not_true_iff_false in H; rewrite leb_key in H
  | |- Num.ltb _ _ = false => apply not_true_iff_false; intros ?
  | |- Num.leb _ _ = false => apply not_true_iff_false; intros ?
  end;
  repeat match goal with
  | H1 : Num.key ?x = Some ?a, H2 : Num.key ?x = Some ?b |- _ =>
      rewrite H1 in H2; injection H2 as <-
  end;
  try (first [apply ltb_key | apply leb_key | apply eqb_key]; eexists _, _;
       split; [eassumption|]; split; [eassumption|]);
  repeat match goal with
  | H : ~ (exists a b, Num.key ?x = Some a /\ Num.key ?y = Some b /\ _),
    Hx : Num.key ?x = Some ?a', Hy : Num.key ?y = Some ?b' |- _ =>
      assert (~ _) by (intros ?; apply H; exists a', b'; repeat split;
                       [exact Hx | exact Hy | eassumption]);
      clear H
  end;
  repeat match goal with
  | a : (Z * Z * Z)%type |- _ => destruct a as [[? ?] ?]
  end;
  unfold Num.lex_lt, Num.lex_le in *; simpl in *; try lia.

Lemma ltb_trans a b c :
  Num.ltb a b = true -> Num.ltb b c = true -> Num.ltb a c = true.
Proof. intros H1 H2. float_order. Qed.

Lemma leb_ltb_trans a b c :
  Num.leb a b = true -> Num.ltb b c = true -> Num.ltb a c = true.
Proof. intros H1 H2. float_order. Qed.

Lemma ltb_leb_trans a b c :
  Num.ltb a b = true -> Num.leb b c = true -> Num.ltb a c = true.
Proof. intros H1 H2. float_order. Qed.

Lemma leb_trans a b c :
  Num.leb a b = true -> Num.leb b c = true -> Num.leb a c = true.
Proof. intros H1 H2. float_order. Qed.

Lemma ltb_irrefl a : Num.ltb a a = false.
Proof. float_order. Qed.

Lemma ltb_leb a b : Num.ltb a b = true -> Num.leb a b = true.
Proof. intros H. float_order. Qed.

Lemma ltb_not_leb a b : Num.ltb a b = true -> Num.leb b a = false.
Proof. intros H. float_order. Qed.

Lemma leb_not_ltb a b : Num.leb a b = true -> Num.ltb b a = false.
Proof. intros H. float_order. Qed.

Lemma ltb_eqb_trans a b c :
  Num.ltb a b = true -> Num.eqb b c = true -> Num.ltb a c = true.
Proof. intros H1 H2. float_order. Qed.

Lemma eqb_sym a b : Num.eqb a b = true -> Num.eqb b a = true.
Proof. intros H. float_order. Qed.


(** Of two numbers the one that is not below the other is at least
    the other. *)
Lemma not_ltb_leb a b c d :
  Num.ltb c a = true -> Num.ltb d b = true ->
  Num.ltb b a = false -> Num.leb a b = true.
Proof. intros H1 H2 H3. float_order. Qed.

(** A strict descent never comes back above where it started. *)
Lemma ltb_above a b c :
  Num.ltb a c = false -> Num.ltb a b = true -> Num.ltb b c = false.
Proof.
  intros H1 H2. destruct (Num.ltb b c) eqn:E; [|reflexivity].
  rewrite (ltb_trans a b c H2 E) in H1. discriminate.
Qed.

Example format_fixed_examples :
  Num.format_fixed 2 5 = "5.00" /\
  Num.format_fixed 2 0.125 = "0.12" /\
  Num.format_fixed 2 0.375 = "0.38" /\
  Num.format_fixed 2 (-10.01) = "-10.01" /\
  Num.format_fixed 4 0.005 = "0.0050" /\
  Num.format_fixed 2 (-0.001) = "-0.00" /\
  Num.format_fixed 2 2.675 = "2.67" /\
  Num.format_fixed 2 infinity = "inf".
Proof. vm_compute. repeat split. Qed.

(** Products, sums and quotients round as the script's do. *)
Example rounding_examples :
  Num.ltb 0.3 (Num.mul 0.1 3) = true /\
  Num.ltb 11 (Num.mul 1.1 10) = false /\
  Num.ltb 0.21 (Num.add 0.2 0.01) = true /\
  Num.ltb 5.01 (Num.add 5 0.01) = false /\
  Num.eqb (Num.mul 1e-200 1e-200) 0 = true /\
  Num.eqb (Num.div 0.3333333333333333 1) (Num.div 1 3) = true.
Proof. vm_compute. repeat split. Qed.

(** ** The selection loop *)

Section SelectionFacts.

Variable wl : list Z.
Variables stake ratio : float.

Abbreviation step := (select_step wl stake ratio).
Abbreviation keeps := (kept wl stake ratio).
Abbreviation adv := (advance wl stake ratio).
Abbreviation from := (select_from wl stake ratio).

(** An iteration raises on a candidate whose liquidity is reached and
    does not convert, and otherwise adopts the candidate exactly when it
    is kept and beats the incumbent score strictly. *)
Lemma select_step_unfold (st : best) (s : Subnet) :
  step st s = match raised wl s with
              | Some e => inl e
              | None => inr (adv st s)
              end.
Proof.
  destruct st as [b bs].
  unfold select_step, advance, raised, uncaught, kept, reaches_liquidity,
    in_whitelist, score. simpl snd.
  destruct (bool_decide (netuid s ∈ wl)); simpl; [|reflexivity].
  destruct (price s) as [| |price_text| |p]; simpl; try reflexivity.
  destruct (Num.leb p 0); simpl; [reflexivity|].
  destruct (tao_in s) as [| |tao_in_text| |t]; simpl; try reflexivity.
  destruct (Num.ltb t (Num.mul stake ratio)); simpl; [reflexivity|].
  destruct (tao_in_emission s) as [| |emission_text| |e]; simpl;
    match goal with |- context [if ?c then _ else _] => destruct c end;
    reflexivity.
Qed.

Lemma breaks_false (s : Subnet) : breaks wl s = false <-> raised wl s = None.
Proof.
  unfold breaks. destruct (raised wl s); split; congruence.
Qed.

(** A candidate that is neither kept nor raises leaves the state alone. *)
Lemma advance_discard st s : keeps s = false -> adv st s = st.
Proof. intros H. unfold advance. rewrite H. reflexivity. Qed.

Lemma advance_cases st s :
  (adv st s = st /\ (keeps s = true -> Num.ltb (snd st) (score s) = false)) \/
  (adv st s = (Some s, score s) /\ keeps s = true /\
   Num.ltb (snd st) (score s) = true).
Proof.
  unfold advance. destruct (keeps s); simpl.
  - destruct (Num.ltb (snd st) (score s)) eqn:E; auto.
  - left. split; [reflexivity | discriminate].
Qed.

(** The loop raises as soon as one candidate does. *)
Lemma select_from_raises (l : list Subnet) (st : best) :
  (exists x, x ∈ l /\ breaks wl x = true) -> exists e, from st l = inl e.
Proof.
  revert st. induction l as [|a l IH]; intros st (x & Hx & Hb).
  - inversion Hx.
  - simpl. rewrite select_step_unfold.
    destruct (raised wl a) as [e|] eqn:Ea; [exists e; reflexivity|].
    apply IH. exists x. split; [|assumption].
    apply elem_of_cons in Hx as [-> | Hx]; [|assumption].
    apply breaks_false in Ea. congruence.
Qed.

(** Without such a candidate the loop is a fold of [advance]. *)
Lemma select_from_fold (l : list Subnet) (st : best) :
  (forall x, x ∈ l -> breaks wl x = false) ->
  from st l = inr (fold_left adv l st).
Proof.
  revert st. induction l as [|a l IH]; intros st Hall; simpl; [reflexivity|].
  assert (Ha : raised wl a = None)
    by (apply breaks_false, Hall, elem_of_cons; auto).
  rewrite select_step_unfold, Ha.
  apply IH. intros x Hx. apply Hall. apply elem_of_cons. auto.
Qed.

(** The loop over a list in two parts. *)
Lemma select_from_app (l1 l2 : list Subnet) (st : best) :
  from st (l1 ++ l2) = match from st l1 with
                       | inl e => inl e
                       | inr st' => from st' l2
                       end.
Proof.
  revert st. induction l1 as [|a l1 IH]; intros st; simpl; [reflexivity|].
  destruct (step st a) as [e|st']; [reflexivity | apply IH].
Qed.

Lemma select_from_cases (l : list Subnet) (st : best) :
  ((exists e, from st l = inl e) /\ exists x, x ∈ l /\ breaks wl x = true) \/
  (from st l = inr (fold_left adv l st) /\
   forall x, x ∈ l -> breaks wl x = false).
Proof.
  destruct (decide (Exists (fun x => breaks wl x = true) l)) as [He | Hn].
  - left. apply Exists_exists in He as (x & Hx & Hb).
    split; [|eauto]. apply select_from_raises. eauto.
  - right. assert (Hall : forall x, x ∈ l -> breaks wl x = false).
    { intros x Hx. destruct (breaks wl x) eqn:E; [|reflexivity].
      exfalso. apply Hn. apply Exists_exists. eauto. }
    split; [|exact Hall]. apply select_from_fold. exact Hall.
Qed.

(** The state after the fold, from any starting state: either nothing
    was adopted and no kept candidate beats the starting score, or the
    adopted candidate is the first one that no kept candidate beats. *)
Lemma fold_advance_spec (l : list Subnet) (st : best) :
  (fold_left adv l st = st /\
   forall x, x ∈ l -> keeps x = true -> Num.ltb (snd st) (score x) = false) \/
  (exists l1 c l2,
      l = l1 ++ c :: l2 /\ keeps c = true /\
      Num.ltb (snd st) (score c) = true /\
      fold_left adv l st = (Some c, score c) /\
      Num.ltb (snd (fold_left adv l1 st)) (score c) = true /\
      (forall x, x ∈ l -> keeps x = true ->
                 Num.ltb (score c) (score x) = false)).
Proof.
  revert st. induction l as [|a l IH]; intros st; simpl.
  - left. split; [reflexivity|]. intros x Hx. inversion Hx.
  - destruct (advance_cases st a) as [[Hk Hle] | (Hk & Ha & Hlt)]; rewrite Hk.
    + destruct (IH st)
        as [[Hf Hall] | (l1 & c & l2 & -> & Hc & Hlt & Hf & Hb & Htop)].
      * left. split; [assumption|].
        intros x Hx Hax. apply elem_of_cons in Hx as [-> | Hx]; auto.
      * right. exists (a :: l1), c, l2. simpl. rewrite Hk.
        repeat split; auto.
        intros x Hx Hax. apply elem_of_cons in Hx as [-> | Hx]; auto.
        eapply ltb_above; eauto.
    + destruct (IH (Some a, score a))
        as [[Hf Hall] | (l1 & c & l2 & -> & Hc & Hlt' & Hf & Hb & Htop)];
        simpl in *.
      * right. exists [], a, l. simpl. repeat split; auto.
        intros x Hx Hax. apply elem_of_cons in Hx as [-> | Hx]; auto.
        apply ltb_irrefl.
      * right. exists (a :: l1), c, l2. simpl. rewrite Hk.
        repeat split; auto; [eapply ltb_trans; eauto|].
        intros x Hx Hax. apply elem_of_cons in Hx as [-> | Hx]; auto.
        eapply ltb_above; [apply ltb_irrefl | assumption].
Qed.

(** The incumbent score is beaten by no kept candidate seen so far. *)
Lemma fold_advance_upper (l : list Subnet) (st : best) (x : Subnet) :
  x ∈ l -> keeps x = true ->
  Num.ltb (snd (fold_left adv l st)) (score x) = false.
Proof.
  intros Hx Hax.
  destruct (fold_advance_spec l st)
    as [[-> Hall] | (l1 & c & l2 & _ & Hc & Hlt & -> & _ & Htop)]; simpl; auto.
Qed.

(** A kept candidate that does not beat the incumbent leaves no mark. *)
Lemma fold_advance_skip (l1 l2 : list Subnet) (b : Subnet) (st : best) :
  (keeps b = true -> Num.ltb (snd (fold_left adv l1 st)) (score b) = false) ->
  fold_left adv (l1 ++ b :: l2) st = fold_left adv (l1 ++ l2) st.
Proof.
  intros Hb. rewrite !fold_left_app. simpl.
  destruct (advance_cases (fold_left adv l1 st) b) as [[-> _] | (_ & Hk & Hlt)];
    [reflexivity|].
  rewrite Hb in Hlt by assumption. discriminate.
Qed.

End SelectionFacts.

Section SelectionResults.

Variable wl : list Z.
Variables stake ratio : float.

Abbreviation keeps := (kept wl stake ratio).
Abbreviation adv := (advance wl stake ratio).
Abbreviation result := (select_result wl stake ratio).

(** A candidate that passes the filters as the specification words them
    passes the tests of the loop. *)
Lemma survives_kept (s : Subnet) : survives wl stake ratio s = true -> keeps s = true.
Proof.
  unfold survives, kept, reaches_liquidity, price_ok, liquidity_readable,
    liquidity_sufficient.
  destruct (in_whitelist wl s); simpl; [|discriminate].
  destruct (price s) as [| |price_text| |p]; simpl; try discriminate.
  destruct (Num.ltb 0 p) eqn:Hp; simpl; [|discriminate].
  rewrite (ltb_not_leb _ _ Hp). simpl.
  destruct (tao_in s) as [| |tao_in_text| |t]; simpl; try discriminate.
  intros Ht. rewrite (leb_not_ltb _ _ Ht). reflexivity.
Qed.

(** A kept candidate has a liquidity that converts: it raises nothing. *)
Lemma kept_not_breaks (s : Subnet) : keeps s = true -> breaks wl s = false.
Proof.
  unfold kept, breaks, raised, uncaught.
  destruct (reaches_liquidity wl s); simpl; [|discriminate].
  destruct (tao_in s); simpl; auto; discriminate.
Qed.

Lemma kept_in_whitelist (s : Subnet) : keeps s = true -> netuid s ∈ wl.
Proof.
  unfold kept, reaches_liquidity, in_whitelist.
  destruct (bool_decide (netuid s ∈ wl)) eqn:E; simpl; [|discriminate].
  intros _. apply bool_decide_eq_true in E. exact E.
Qed.

(** The price and the liquidity of a kept candidate. *)
Lemma kept_readings (s : Subnet) :
  keeps s = true ->
  exists p t, price s = Number p /\ Num.leb p 0 = false /\
              tao_in s = Number t /\
              Num.ltb t (Num.mul stake ratio) = false.
Proof.
  unfold kept, reaches_liquidity.
  destruct (in_whitelist wl s); simpl; [|discriminate].
  destruct (price s) as [| |price_text| |p]; simpl; try discriminate.
  destruct (Num.leb p 0) eqn:Hp; simpl; [discriminate|].
  destruct (tao_in s) as [| |tao_in_text| |t]; simpl; try discriminate.
  destruct (Num.ltb t (Num.mul stake ratio)) eqn:Ht; simpl; [discriminate|].
  intros _. exists p, t. auto.
Qed.

(** An exception leaves the selection exactly when a candidate makes
    the loop raise. *)
Lemma select_result_raises (l : list Subnet) :
  (exists e, result l = inl e) <-> exists x, x ∈ l /\ breaks wl x = true.
Proof.
  unfold select_result, select_loop.
  destruct (select_from_cases wl stake ratio l (None, 0%float))
    as [[[e ->] Hex] | [-> Hall]].
  - split; [auto | intros _; exists e; reflexivity].
  - split.
    + intros [e He].
      destruct (fold_left adv l (None, 0%float)) as [[c|] bs]; discriminate.
    + intros (x & Hx & Hb). rewrite Hall in Hb by assumption. discriminate.
Qed.

(** A returned candidate is kept, scores above zero, is beaten by no
    kept candidate, and is the first to beat what came before it. *)
Lemma select_result_Some (l : list Subnet) (c : Subnet) (msg : option string) :
  result l = inr (Some c, msg) ->
  msg = None /\
  (forall x, x ∈ l -> breaks wl x = false) /\
  keeps c = true /\ Num.ltb 0 (score c) = true /\
  (forall x, x ∈ l -> keeps x = true -> Num.ltb (score c) (score x) = false) /\
  exists l1 l2,
    l = l1 ++ c :: l2 /\
    Num.ltb (snd (fold_left adv l1 (None, 0%float))) (score c) = true.
Proof.
  unfold select_result, select_loop.
  destruct (select_from_cases wl stake ratio l (None, 0%float))
    as [[[e ->] Hex] | [-> Hall]]; [discriminate|].
  destruct (fold_advance_spec wl stake ratio l (None, 0%float))
    as [[-> _] | (l1 & c' & l2 & Hl & Hc & Hlt & -> & Hb & Htop)];
    [discriminate|].
  intros [= <- <-]. repeat split; auto. exists l1, l2. auto.
Qed.

(** "No eligible subnets" means that no kept candidate scores above
    zero. *)
Lemma select_result_None (l : list Subnet) (msg : option string) :
  result l = inr (None, msg) ->
  msg = Some "No eligible subnets in whitelist" /\
  (forall x, x ∈ l -> breaks wl x = false) /\
  (forall x, x ∈ l -> keeps x = true -> Num.ltb 0 (score x) = false).
Proof.
  unfold select_result, select_loop.
  destruct (select_from_cases wl stake ratio l (None, 0%float))
    as [[[e ->] Hex] | [-> Hall]]; [discriminate|].
  destruct (fold_advance_spec wl stake ratio l (None, 0%float))
    as [[-> Hle] | (l1 & c' & l2 & Hl & Hc & Hlt & -> & Hb & Htop)];
    [|discriminate].
  intros [= <-]. auto.
Qed.

(** The converse: when nothing raises and no kept candidate scores above
    zero, the answer is "no eligible subnets". *)
Lemma select_result_no_positive (l : list Subnet) :
  (forall x, x ∈ l -> breaks wl x = false) ->
  (forall x, x ∈ l -> keeps x = true -> Num.ltb 0 (score x) = false) ->
  result l = inr (None, Some "No eligible subnets in whitelist").
Proof.
  intros Hall Hle. unfold select_result, select_loop.
  rewrite (select_from_fold wl stake ratio l _ Hall).
  destruct (fold_advance_spec wl stake ratio l (None, 0%float))
    as [[-> _] | (l1 & c & l2 & -> & Hc & Hlt & _)]; [reflexivity|].
  simpl in Hlt. rewrite Hle in Hlt; [discriminate| |assumption].
  apply elem_of_app. right. apply elem_of_cons. auto.
Qed.

(** The first candidate that scores above zero, above every scoring
    candidate before it and not below any candidate after it, is the one
    returned. *)
Lemma select_result_first (l1 l2 : list Subnet) (c : Subnet) :
  (forall x, x ∈ l1 ++ c :: l2 -> breaks wl x = false) ->
  keeps c = true -> Num.ltb 0 (score c) = true ->
  (forall x, x ∈ l1 -> keeps x = true -> Num.ltb 0 (score x) = true ->
             Num.ltb (score x) (score c) = true) ->
  (forall x, x ∈ l2 -> keeps x = true -> Num.ltb (score c) (score x) = false) ->
  result (l1 ++ c :: l2) = inr (Some c, None).
Proof.
  intros Hall Hc Hpos H1 H2. unfold select_result, select_loop.
  rewrite (select_from_fold wl stake ratio _ _ Hall).
  rewrite fold_left_app. simpl.
  assert (Hlt : Num.ltb (snd (fold_left adv l1 (None, 0%float))) (score c) = true).
  { destruct (fold_advance_spec wl stake ratio l1 (None, 0%float))
      as [[-> _] | (la & c' & lb & -> & Hc' & Hlt' & -> & _)]; simpl; auto.
    apply H1; auto. apply elem_of_app. right. apply elem_of_cons. auto. }
  assert (Ha : adv (fold_left adv l1 (None, 0%float)) c = (Some c, score c)).
  { destruct (advance_cases wl stake ratio (fold_left adv l1 (None, 0%float)) c)
      as [[_ Hle] | (Hk & _)]; [|exact Hk].
    rewrite Hle in Hlt by assumption. discriminate. }
  rewrite Ha.
  destruct (fold_advance_spec wl stake ratio l2 (Some c, score c))
    as [[-> _] | (la & c' & lb & -> & Hc' & Hlt' & _)]; [reflexivity|].
  simpl in Hlt'. rewrite H2 in Hlt'; [discriminate| |assumption].
  apply elem_of_app. right. apply elem_of_cons. auto.
Qed.

(** Of two kept candidates with equal scores the later one is passed
    over: the loop ends as if it were not in the list. *)
Lemma select_loop_passes_over (l1 l2 l3 : list Subnet) (a b : Subnet) :
  keeps a = true -> keeps b = true ->
  Num.eqb (score a) (score b) = true ->
  select_loop wl stake ratio (l1 ++ a :: l2 ++ b :: l3)
  = select_loop wl stake ratio (l1 ++ a :: l2 ++ l3).
Proof.
  intros Ha Hb Heq. unfold select_loop.
  replace (l1 ++ a :: l2 ++ b :: l3) with ((l1 ++ a :: l2) ++ b :: l3)
    by (rewrite <- app_assoc; reflexivity).
  replace (l1 ++ a :: l2 ++ l3) with ((l1 ++ a :: l2) ++ l3)
    by (rewrite <- app_assoc; reflexivity).
  rewrite (select_from_app wl stake ratio (l1 ++ a :: l2) (b :: l3)),
    (select_from_app wl stake ratio (l1 ++ a :: l2) l3).
  destruct (select_from_cases wl stake ratio (l1 ++ a :: l2) (None, 0%float))
    as [[[e ->] _] | [-> _]]; [reflexivity|].
  simpl. rewrite select_step_unfold.
  assert (Hr : raised wl b = None) by (apply breaks_false, kept_not_breaks, Hb).
  rewrite Hr.
  destruct (advance_cases wl stake ratio
              (fold_left adv (l1 ++ a :: l2) (None, 0%float)) b)
    as [[-> _] | (_ & _ & E)]; [reflexivity|].
  exfalso.
  assert (Hup := fold_advance_upper wl stake ratio (l1 ++ a :: l2)
                   (None, 0%float) a).
  rewrite (ltb_eqb_trans _ _ _ E (eqb_sym _ _ Heq)) in Hup.
  assert (Hno : true = false); [|discriminate Hno].
  apply Hup; [|assumption].
  apply elem_of_app. right. apply elem_of_cons. auto.
Qed.

End SelectionResults.

(** ** Claims on whitelist selection *)

(** C1 (the script falls short of the claim).  A candidate that passes
    the four filters but scores 0, because its emission is zero or cannot
    be read, never beats the initial best score 0.0: the selection reports
    "no eligible subnets" although a candidate survived.  What the
    selection does return is characterised by [select_result_Some],
    [select_result_None] and [select_result_raises]. *)
Theorem C1_zero_score_survivor_is_dropped :
  survives [4] 1 10 Sample.dormant = true /\
  select_result [4] 1 10 [Sample.dormant]
    = inr (None, Some "No eligible subnets in whitelist") /\
  survives [1] 1 10 Sample.quiet = true /\
  select_result [1] 1 10 [Sample.quiet]
    = inr (None, Some "No eligible subnets in whitelist").
Proof. vm_compute. repeat split. Qed.


(** The same on two candidates whose emissions and prices differ while
    their quotients are one and the same double. *)
Example order_dependent_on_rounded_scores :
  Num.eqb (score Sample.third) (score Sample.thirds) = true /\
  select_result [1; 2] 1 10 [Sample.third; Sample.thirds]
    = inr (Some Sample.third, None) /\
  select_result [1; 2] 1 10 [Sample.thirds; Sample.third]
    = inr (Some Sample.thirds, None).
Proof. vm_compute. repeat split. Qed.

(** Which exception leaves the loop depends on the order too: it is
    that of the first candidate whose liquidity [float] rejects. *)
Example raised_exception_follows_the_order :
  select_result [8; 10] 1 10 [Sample.garbled; Sample.garbled2]
    = inl (ValueError "n/a") /\
  select_result [8; 10] 1 10 [Sample.garbled2; Sample.garbled]
    = inl (ValueError "unknown").
Proof. vm_compute. split; reflexivity. Qed.



(** C4 (the script falls short of the claim).  Two candidates that pass
    the four filters and whose emission cannot be read both score 0, a
    tie the claim names; the earlier one is not chosen: neither beats the
    initial best score 0.0 and the selection reports "no eligible
    subnets".  This is the behaviour recorded under C1.  For ties above
    zero see [select_loop_passes_over] and [select_result_first]. *)
Theorem C4_zero_score_tie_selects_neither :
  survives [1; 2] 1 10 Sample.quiet = true /\
  survives [1; 2] 1 10 Sample.quiet2 = true /\
  score Sample.quiet = 0%float /\
  Num.eqb (score Sample.quiet) (score Sample.quiet2) = true /\
  select_result [1; 2] 1 10 [Sample.quiet; Sample.quiet2]
    = inr (None, Some "No eligible subnets in whitelist").
Proof. vm_compute. repeat split. Qed.

(** ** Traces *)

Lemma opens_app t1 t2 : opens (t1 ++ t2) = opens t1 ++ opens t2.
Proof.
  induction t1 as [|ev t1 IH]; [reflexivity|].
  destruct ev; simpl; rewrite IH; reflexivity.
Qed.

Lemma connecting_app t1 t2 : connecting (t1 ++ t2) = connecting t1 ++ connecting t2.
Proof.
  induction t1 as [|ev t1 IH]; [reflexivity|].
  destruct ev as [[] [] | | | | | | | | | |]; simpl; rewrite IH; reflexivity.
Qed.

Lemma closes_app t1 t2 : closes (t1 ++ t2) = (closes t1 + closes t2)%nat.
Proof.
  induction t1 as [|ev t1 IH]; [reflexivity|].
  destruct ev; simpl; rewrite IH; reflexivity.
Qed.

Lemma fetches_app t1 t2 : fetches (t1 ++ t2) = (fetches t1 + fetches t2)%nat.
Proof.
  induction t1 as [|ev t1 IH]; [reflexivity|].
  destruct ev; simpl; rewrite IH; reflexivity.
Qed.

Lemma connection_phase_closes t : Forall connection_phase t -> closes t = O.
Proof.
  induction 1 as [|ev t Hev _ IH]; [reflexivity|].
  destruct ev; simpl in *; auto; contradiction.
Qed.

Lemma connection_phase_fetches t : Forall connection_phase t -> fetches t = O.
Proof.
  induction 1 as [|ev t Hev _ IH]; [reflexivity|].
  destruct ev; simpl in *; auto; contradiction.
Qed.

(** ** Connection *)

Section ConnectionFacts.

Variable w : World.

(** One try: construct the client, then ask for the current block. *)
Lemma connect_attempt_unfold (network : string) (k : nat) :
  connect_attempt w network k =
    match dial w network k with
    | CtorRaises e => (Raise e, [NewSubtensor network])
    | LivenessRaises e => (Raise e, [NewSubtensor network; GetCurrentBlock network])
    | Alive => (Return {| connected_to := network |},
                [NewSubtensor network; GetCurrentBlock network])
    end.
Proof.
  unfold connect_attempt. destruct (dial w network k); reflexivity.
Qed.

(** The retry loop with [more] tries left after the current one. *)
Lemma retry_loop_spec (network : string) (more k : nat) :
  let m := retry_loop more k (connect_attempt w network) in
  Forall connection_phase (snd m) /\ connecting (snd m) = [] /\
  ((exists j, (j <= more)%nat /\
              fst m = Return {| connected_to := network |} /\
              opens (snd m) = replicate (S j) network /\
              dial w network (k + j) = Alive) \/
   (exists e, fst m = Raise (RetryError e) /\
              attempt_error (dial w network (k + more)) = Some e /\
              opens (snd m) = replicate (S more) network /\
              forall i, (i <= more)%nat -> dial w network (k + i) <> Alive)).
Proof.
  revert k. induction more as [|more IH]; intros k; simpl.
  - rewrite connect_attempt_unfold.
    destruct (dial w network k) eqn:E; simpl.
    + repeat split; [repeat constructor|]. right. exists e.
      rewrite Nat.add_0_r, E. repeat split.
      intros i Hi. replace i with O by lia. rewrite Nat.add_0_r, E. discriminate.
    + repeat split; [repeat constructor|]. right. exists e.
      rewrite Nat.add_0_r, E. repeat split.
      intros i Hi. replace i with O by lia. rewrite Nat.add_0_r, E. discriminate.
    + repeat split; [repeat constructor|]. left. exists O.
      rewrite Nat.add_0_r. repeat split; auto.
  - rewrite connect_attempt_unfold.
    specialize (IH (S k)). simpl in IH.
    destruct (retry_loop more (S k) (connect_attempt w network)) as [r t].
    simpl in IH. destruct IH as (Hall & Hcon & Hres).
    assert (Hshift : forall P : nat -> Prop,
               P O -> (forall i, (i <= more)%nat -> P (S i)) ->
               forall i, (i <= S more)%nat -> P i).
    { intros P H0 HS [|i] Hi; [exact H0 | apply HS; lia]. }
    destruct (dial w network k) eqn:E; simpl.
    + repeat split; [repeat constructor; assumption | assumption |].
      destruct Hres as [(j & Hj & Hr & Ho & Hd) | (e' & Hr & He & Ho & Hd)].
      * left. exists (S j). rewrite Ho, Nat.add_succ_r.
        repeat split; auto; lia.
      * right. exists e'. rewrite Ho, Nat.add_succ_r.
        repeat split; auto.
        apply Hshift.
        -- rewrite Nat.add_0_r, E. discriminate.
        -- intros i Hi. rewrite Nat.add_succ_r. auto.
    + repeat split; [repeat constructor; assumption | assumption |].
      destruct Hres as [(j & Hj & Hr & Ho & Hd) | (e' & Hr & He & Ho & Hd)].
      * left. exists (S j). rewrite Ho, Nat.add_succ_r.
        repeat split; auto; lia.
      * right. exists e'. rewrite Ho, Nat.add_succ_r.
        repeat split; auto.
        apply Hshift.
        -- rewrite Nat.add_0_r, E. discriminate.
        -- intros i Hi. rewrite Nat.add_succ_r. auto.
    + repeat split; [repeat constructor|]. left. exists O.
      rewrite Nat.add_0_r. repeat split; auto. lia.
Qed.

End ConnectionFacts.

Section ConnectorFacts.

Variable w : World.

Lemma connect_with_retry_unfold (network : string) :
  connect_with_retry w network = retry_loop 2 1 (connect_attempt w network).
Proof. reflexivity. Qed.

Lemma three_tries_each_cons (network : string) (rest : list string) :
  three_tries_each (network :: rest)
  = [network; network; network] ++ three_tries_each rest.
Proof. reflexivity. Qed.

Lemma three_tries_each_app (l1 l2 : list string) :
  three_tries_each (l1 ++ l2) = three_tries_each l1 ++ three_tries_each l2.
Proof. unfold three_tries_each. apply bind_app. Qed.

(** The loop over the networks: it falls through after three failed
    tries on every network, or returns the client of the first network
    that answers. *)
Lemma connect_loop_spec (networks : list string) (last_error : option exn) :
  let m := connect_loop w networks last_error in
  Forall connection_phase (snd m) /\
  ((exists last', fst m = Next last' /\
      opens (snd m) = three_tries_each networks /\
      connecting (snd m) = networks /\
      (forall n k, n ∈ networks -> (1 <= k <= 3)%nat -> dial w n k <> Alive) /\
      match last networks with
      | None => last' = last_error
      | Some n => exists e, attempt_error (dial w n 3) = Some e /\
                            last' = Some (RetryError e)
      end) \/
   (exists pre n post j,
      networks = pre ++ n :: post /\ (j <= 2)%nat /\
      fst m = Return {| connected_to := n |} /\
      opens (snd m) = three_tries_each pre ++ replicate (S j) n /\
      connecting (snd m) = pre ++ [n] /\
      dial w n (S j) = Alive)).
Proof.
  revert last_error. induction networks as [|network rest IH]; intros last_error.
  - simpl. split; [constructor|]. left. exists last_error.
    repeat split; auto. intros n k Hn. inversion Hn.
  - cbn [connect_loop]. rewrite connect_with_retry_unfold.
    pose proof (retry_loop_spec w network 2 1) as Hretry. cbv zeta in Hretry.
    destruct (retry_loop 2 1 (connect_attempt w network)) as [r t].
    simpl in Hretry. destruct Hretry as (Hall & Hcon & Hres).
    destruct Hres as [(j & Hj & -> & Ho & Hd) | (e & -> & He & Ho & Hd)].
    + (* the network answered on try [S j] *)
      simpl. split.
      * constructor; [exact I|]. apply Forall_app. split; [assumption|].
        repeat constructor.
      * right. exists [], network, rest, j. simpl.
        rewrite opens_app, connecting_app, Ho, Hcon. simpl.
        rewrite app_nil_r. repeat split; auto.
    + (* three failed tries: go on with the next network *)
      specialize (IH (Some (RetryError e))). cbv zeta in IH.
      simpl.
      destruct (connect_loop w rest (Some (RetryError e))) as [r' t'].
      simpl in IH. destruct IH as (Hall' & Hres').
      assert (Hphase : Forall connection_phase
                (Log INFO (Connecting network)
                   :: (t ++ [Log WARNING (FailedToConnect network (RetryError e))])
                   ++ t')).
      { constructor; [exact I|]. apply Forall_app. split; [|assumption].
        apply Forall_app. split; [assumption|]. repeat constructor. }
      assert (Hopens : opens ((t ++ [Log WARNING (FailedToConnect network (RetryError e))]) ++ t')
                       = [network; network; network] ++ opens t').
      { rewrite !opens_app, Ho. simpl. reflexivity. }
      assert (Hconn : connecting ((t ++ [Log WARNING (FailedToConnect network (RetryError e))]) ++ t')
                      = connecting t').
      { rewrite !connecting_app, Hcon. reflexivity. }
      destruct Hres' as [(last' & Hr' & Ho' & Hc' & Hd' & Hl')
                        | (pre & n & post & j & -> & Hj & Hr' & Ho' & Hc' & Hd')];
        simpl in Hr'; subst r'; simpl.
      * split; [assumption|]. left. exists last'.
        rewrite Hopens, Hconn, Ho', Hc'.
        repeat split; auto.
        -- intros n k Hn Hk. apply elem_of_cons in Hn as [-> | Hn]; [|auto].
           replace k with (1 + (k - 1))%nat by lia. apply Hd. lia.
        -- rewrite last_cons. destruct (last rest) as [n'|]; [exact Hl'|].
           subst last'. exists e. auto.
      * split; [assumption|]. right. exists (network :: pre), n, post, j.
        rewrite Hopens, Hconn, Ho', Hc'.
        repeat split; auto.
Qed.

End ConnectorFacts.

(** Dropping the preferred network from a list, in the script's way and
    in the specification's. *)
Lemma filter_ne_difference (preferred : string) (l : list string) :
  filter (fun n => n <> preferred) l = list_difference l [preferred].
Proof.
  induction l as [|x l IH]; [reflexivity|].
  rewrite filter_cons. simpl. rewrite IH.
  destruct (decide (x <> preferred)) as [Hne | Heq];
    destruct (decide_rel elem_of x [preferred]) as [Hin | Hnin];
    try reflexivity.
  - apply list_elem_of_singleton in Hin. contradiction.
  - exfalso. apply Hnin. apply list_elem_of_singleton.
    destruct (decide (x = preferred)); [assumption | contradiction].
Qed.

Lemma networks_to_try_spec (preferred : string) :
  networks_to_try preferred = spec_fallback_order preferred.
Proof.
  unfold networks_to_try, spec_fallback_order, FALLBACK_NETWORKS.
  simpl. f_equal. apply filter_ne_difference.
Qed.

Lemma networks_to_try_NoDup (preferred : string) :
  NoDup (networks_to_try preferred).
Proof.
  unfold networks_to_try. simpl. apply NoDup_cons. split.
  - intros Hin. apply list_elem_of_filter in Hin as [Hne _]. contradiction.
  - apply NoDup_filter. unfold FALLBACK_NETWORKS.
    apply (bool_decide_unpack _). vm_compute. reflexivity.
Qed.

Lemma count_three_tries (x : string) (networks : list string) :
  length (filter (eq x) (three_tries_each networks))
  = (3 * length (filter (eq x) networks))%nat.
Proof.
  induction networks as [|n networks IH]; [reflexivity|].
  rewrite three_tries_each_cons, filter_app, length_app, IH.
  rewrite !filter_cons, filter_nil.
  destruct (decide (x = n)); simpl; lia.
Qed.

Lemma count_absent (x : string) (l : list string) :
  x ∉ l -> filter (eq x) l = [].
Proof.
  induction l as [|y l IH]; intros Hx; [reflexivity|].
  apply not_elem_of_cons in Hx as [Hne Hx].
  rewrite filter_cons. destruct (decide (x = y)); [contradiction | auto].
Qed.

Lemma count_NoDup (x : string) (l : list string) :
  NoDup l -> (length (filter (eq x) l) <= 1)%nat.
Proof.
  induction 1 as [|y l Hy Hnd IH]; [simpl; lia|].
  rewrite filter_cons. destruct (decide (x = y)) as [<- | Hne]; [|assumption].
  rewrite (count_absent x l Hy). simpl. lia.
Qed.

Lemma count_prefix (x : string) (l1 l2 : list string) :
  l1 `prefix_of` l2 ->
  (length (filter (eq x) l1) <= length (filter (eq x) l2))%nat.
Proof. intros [k ->]. rewrite filter_app, length_app. lia. Qed.

(** What [connect_to_bittensor] does, for any behaviour of the networks. *)
Lemma connect_to_bittensor_spec (w : World) (primary : string) :
  let m := connect_to_bittensor w primary in
  let networks := networks_to_try primary in
  Forall connection_phase (snd m) /\
  ((exists n e,
      fst m = Raise (ConnectionError (Some (RetryError e))) /\
      last networks = Some n /\ attempt_error (dial w n 3) = Some e /\
      opens (snd m) = three_tries_each networks /\
      connecting (snd m) = networks /\
      (forall n k, n ∈ networks -> (1 <= k <= 3)%nat -> dial w n k <> Alive)) \/
   (exists pre n post j,
      networks = pre ++ n :: post /\ (j <= 2)%nat /\
      fst m = Return {| connected_to := n |} /\
      opens (snd m) = three_tries_each pre ++ replicate (S j) n /\
      connecting (snd m) = pre ++ [n] /\
      dial w n (S j) = Alive)).
Proof.
  cbv zeta. unfold connect_to_bittensor.
  pose proof (connect_loop_spec w (networks_to_try primary) None) as H.
  cbv zeta in H.
  destruct (connect_loop w (networks_to_try primary) None) as [r t].
  simpl in H. destruct H as (Hall & Hres). unfold bind.
  destruct Hres as [(last' & -> & Ho & Hc & Hd & Hl)
                   | (pre & n & post & j & Hn & Hj & -> & Ho & Hc & Hd)].
  - simpl. rewrite app_nil_r. split; [assumption|]. left.
    destruct (last (networks_to_try primary)) as [n|] eqn:El.
    + destruct Hl as (e & He & ->). exists n, e. repeat split; auto.
    + apply last_None in El. discriminate El.
  - simpl. split; [assumption|]. right. exists pre, n, post, j.
    repeat split; auto.
Qed.

Lemma given_up_app t1 t2 : given_up (t1 ++ t2) = given_up t1 ++ given_up t2.
Proof. apply omap_app. Qed.

(** The three tries on one network stop at the first answer. *)
Lemma connect_with_retry_first (w : World) (network : string) :
  let m := connect_with_retry w network in
  given_up (snd m) = [] /\ connecting (snd m) = [] /\
  match first_answer w network with
  | Some k =>
      fst m = Return {| connected_to := network |} /\
      opens (snd m) = replicate k network
  | None =>
      exists e, fst m = Raise (RetryError e) /\
                opens (snd m) = replicate 3 network
  end.
Proof.
  cbv zeta. rewrite connect_with_retry_unfold. unfold first_answer.
  cbn [retry_loop]. rewrite !connect_attempt_unfold.
  destruct (dial w network 1) as [e1|e1|];
    destruct (dial w network 2) as [e2|e2|];
    destruct (dial w network 3) as [e3|e3|];
    simpl; (split; [reflexivity|]); (split; [reflexivity|]);
    try (split; reflexivity); eexists; split; reflexivity.
Qed.

(** The loop over the networks gives up, with a warning, on every network
    before the first one that answers. *)
Lemma connect_loop_first (w : World) (networks : list string)
    (last_error : option exn) :
  let m := connect_loop w networks last_error in
  (exists pre n post k,
      networks = pre ++ n :: post /\
      Forall (fun x => first_answer w x = None) pre /\
      first_answer w n = Some k /\
      fst m = Return {| connected_to := n |} /\
      opens (snd m) = three_tries_each pre ++ replicate k n /\
      given_up (snd m) = pre /\
      last (snd m) = Some (Log INFO (Connected n)) /\
      connecting (snd m) = pre ++ [n]) \/
  (Forall (fun x => first_answer w x = None) networks /\
   (exists last', fst m = Next last') /\
   opens (snd m) = three_tries_each networks /\
   given_up (snd m) = networks /\
   connecting (snd m) = networks).
Proof.
  revert last_error. induction networks as [|network rest IH]; intros last_error.
  - right. simpl. repeat split; eauto.
  - cbn [connect_loop].
    pose proof (connect_with_retry_first w network) as Hretry. cbv zeta in Hretry.
    destruct (connect_with_retry w network) as [r t].
    simpl in Hretry. destruct Hretry as (Hgiven & Hcon & Hretry).
    destruct (first_answer w network) as [k|] eqn:Hfirst.
    + destruct Hretry as [-> Ho]. left.
      exists [], network, rest, k. simpl.
      rewrite opens_app, given_up_app, connecting_app, Ho, Hgiven, Hcon. simpl.
      rewrite app_nil_r. repeat split; auto.
      change (Log INFO (Connecting network) :: t ++ [Log INFO (Connected network)])
        with ((Log INFO (Connecting network) :: t) ++ [Log INFO (Connected network)]).
      apply last_snoc.
    + destruct Hretry as (e & -> & Ho).
      specialize (IH (Some (RetryError e))). cbv zeta in IH. simpl.
      destruct (connect_loop w rest (Some (RetryError e))) as [r' t'].
      simpl in IH.
      assert (Hopens : opens ((t ++ [Log WARNING (FailedToConnect network (RetryError e))]) ++ t')
                       = [network; network; network] ++ opens t').
      { rewrite !opens_app, Ho. reflexivity. }
      assert (Hgiven' : given_up ((t ++ [Log WARNING (FailedToConnect network (RetryError e))]) ++ t')
                        = network :: given_up t').
      { rewrite !given_up_app, Hgiven. reflexivity. }
      assert (Hconn : connecting ((t ++ [Log WARNING (FailedToConnect network (RetryError e))]) ++ t')
                      = connecting t').
      { rewrite !connecting_app, Hcon. reflexivity. }
      destruct IH as [(pre & n & post & k & -> & Hpre & Hn & Hr & Ho' & Hg & Hlast & Hc)
                     | (Hall & (last' & Hr) & Ho' & Hg & Hc)];
        simpl in Hr; subst r'; simpl.
      * left. exists (network :: pre), n, post, k.
        rewrite Hopens, Hgiven', Hconn, Ho', Hg, Hc. repeat split; auto.
        rewrite last_cons, last_app, Hlast. reflexivity.
      * right. rewrite Hopens, Hgiven', Hconn, Ho', Hg, Hc. repeat split; eauto.
Qed.

(** What [connect_to_bittensor] announces, opens and gives up, by the
    first network of its list that answers within three tries. *)
Lemma connect_to_bittensor_first (w : World) (primary : string) :
  let m := connect_to_bittensor w primary in
  match fst m with
  | Return sub =>
      exists pre post k,
        networks_to_try primary = pre ++ connected_to sub :: post /\
        Forall (fun x => first_answer w x = None) pre /\
        first_answer w (connected_to sub) = Some k /\
        opens (snd m) = three_tries_each pre ++ replicate k (connected_to sub) /\
        given_up (snd m) = pre /\
        last (snd m) = Some (Log INFO (Connected (connected_to sub))) /\
        connecting (snd m) = pre ++ [connected_to sub]
  | Raise e =>
      Forall (fun x => first_answer w x = None) (networks_to_try primary) /\
      opens (snd m) = three_tries_each (networks_to_try primary) /\
      given_up (snd m) = networks_to_try primary /\
      connecting (snd m) = networks_to_try primary
  | Next v => match v with end
  end.
Proof.
  cbv zeta. unfold connect_to_bittensor.
  pose proof (connect_loop_first w (networks_to_try primary) None) as H.
  cbv zeta in H.
  destruct (connect_loop w (networks_to_try primary) None) as [r t].
  simpl in H. unfold bind.
  destruct H as [(pre & n & post & k & Hl & Hpre & Hn & -> & Ho & Hg & Hlast & Hc)
                | (Hall & (last' & ->) & Ho & Hg & Hc)]; simpl.
  - exists pre, post, k. repeat split; auto.
  - rewrite app_nil_r. repeat split; assumption.
Qed.

(** ** Claims on the connector *)

(** C7.  The networks are tried in the order: the preferred network, then
    finney, subvortex, archive without any duplicate of the preferred one;
    for "archive" this is archive, finney, subvortex.  The order is the
    one observed.  When the connector returns a client, the networks it
    announced with "Connecting to ..." are the list up to and including
    the first network that answers within three tries, each network
    before it having been tried three times; when it raises, they are the
    whole list, each tried three times.  So a run against networks that
    never answer, preferring "archive", announces archive, finney,
    subvortex. *)
Theorem C7_fallback_order (w : World) (preferred : string) :
  let m := connect_to_bittensor w preferred in
  networks_to_try preferred = spec_fallback_order preferred /\
  networks_to_try "archive" = ["archive"; "finney"; "subvortex"] /\
  match fst m with
  | Return sub =>
      exists pre post k,
        spec_fallback_order preferred = pre ++ connected_to sub :: post /\
        Forall (fun x => first_answer w x = None) pre /\
        first_answer w (connected_to sub) = Some k /\
        connecting (trace_of m) = pre ++ [connected_to sub] /\
        opens (trace_of m) = three_tries_each pre ++ replicate k (connected_to sub)
  | Raise _ =>
      connecting (trace_of m) = spec_fallback_order preferred /\
      opens (trace_of m) = three_tries_each (spec_fallback_order preferred)
  | Next v => match v with end
  end /\
  connecting (trace_of (connect_to_bittensor
                (Sample.world Sample.never_up [] 0 (inr true)
                   (Sample.config None [] false)) "archive"))
  = ["archive"; "finney"; "subvortex"].
Proof.
  cbv zeta. split; [apply networks_to_try_spec|].
  split; [reflexivity|]. split; [|reflexivity].
  unfold trace_of. rewrite <- networks_to_try_spec.
  pose proof (connect_to_bittensor_first w preferred) as H. cbv zeta in H.
  destruct (fst (connect_to_bittensor w preferred)) as [[]|sub|e].
  - destruct H as (pre & post & k & Hl & Hpre & Hk & Ho & _ & _ & Hc).
    exists pre, post, k. auto.
  - destruct H as (_ & Ho & _ & Hc). auto.
Qed.
(** C8.  Every network of the list gets at most three tries, the tries
    on one network come before those on the next, and a try whose
    liveness call fails is a failed try.  The connector raises only when
    every network in the list was tried three times without an answer, and
    the [ConnectionError] then carries the error that ended the tries on
    the last network. *)
Theorem C8_three_tries_per_network (w : World) (primary : string) :
  let m := connect_to_bittensor w primary in
  let networks := networks_to_try primary in
  opens (trace_of m) `prefix_of` three_tries_each networks /\
  (forall network, (tries_on network (trace_of m) <= 3)%nat) /\
  match fst m with
  | Raise e =>
      opens (trace_of m) = three_tries_each networks /\
      Forall (fun n => Forall (fun k => dial w n k <> Alive) [1; 2; 3]%nat) networks /\
      exists n e3,
        last networks = Some n /\
        attempt_error (dial w n 3) = Some e3 /\
        e = ConnectionError (Some (RetryError e3))
  | Return sub =>
      connected_to sub ∈ networks /\
      exists k, (1 <= k <= 3)%nat /\ dial w (connected_to sub) k = Alive
  | Next v => match v with end
  end /\
  ((forall n k, exists e, dial w n k = LivenessRaises e) ->
   exists e, fst m = Raise (ConnectionError (Some (RetryError e))) /\
             opens (trace_of m) = three_tries_each networks).
Proof.
  cbv zeta. unfold trace_of.
  assert (Hprefix : opens (snd (connect_to_bittensor w primary))
                      `prefix_of` three_tries_each (networks_to_try primary)).
  { destruct (connect_to_bittensor_spec w primary)
      as (_ & [(n & e & _ & _ & _ & Ho & _)
              | (pre & n & post & j & Hn & Hj & _ & Ho & _)]).
    - rewrite Ho. reflexivity.
    - rewrite Ho, Hn, three_tries_each_app, three_tries_each_cons.
      apply prefix_app, prefix_app_r.
      exists (replicate (2 - j) n). rewrite <- replicate_add.
      replace (S j + (2 - j))%nat with 3%nat by lia. reflexivity. }
  split; [exact Hprefix|]. split; [|split].
  - intros network. unfold tries_on.
    etransitivity; [apply count_prefix, Hprefix|].
    rewrite count_three_tries.
    pose proof (count_NoDup network _ (networks_to_try_NoDup primary)). lia.
  - destruct (connect_to_bittensor_spec w primary)
      as (_ & [(n & e & Hr & Hl & He & Ho & _ & Hd)
              | (pre & n & post & j & Hn & Hj & Hr & _ & _ & Hd)]);
      rewrite Hr.
    + split; [exact Ho|]. split; [|exists n, e; auto].
      apply Forall_forall. intros x Hx.
      repeat constructor; apply Hd; auto; lia.
    + simpl. split.
      * rewrite Hn. apply elem_of_app. right. apply elem_of_cons. auto.
      * exists (S j). split; [lia | exact Hd].
  - intros Hdown.
    destruct (connect_to_bittensor_spec w primary)
      as (_ & [(n & e & Hr & _ & _ & Ho & _)
              | (pre & n & post & j & _ & _ & _ & _ & _ & Hd)]).
    + exists e. auto.
    + destruct (Hdown n (S j)) as [e He]. rewrite He in Hd. discriminate Hd.
Qed.

(** C8, on networks whose liveness call always fails. *)
Lemma C8_witness :
  exists e,
    fst (connect_to_bittensor
           (Sample.world Sample.never_up [] 0 (inr true) (Sample.config None [] false))
           "archive")
    = Raise (ConnectionError (Some (RetryError e))) /\
    opens (trace_of (connect_to_bittensor
           (Sample.world Sample.never_up [] 0 (inr true) (Sample.config None [] false))
           "archive"))
    = three_tries_each ["archive"; "finney"; "subvortex"].
Proof.
  apply (C8_three_tries_per_network
           (Sample.world Sample.never_up [] 0 (inr true) (Sample.config None [] false))
           "archive").
  intros n k. simpl. unfold Sample.never_up. eexists. reflexivity.
Defined.

(** ** Claims on the liquidity gate *)

(** C6, as stated, fails: a liquidity that cannot be read because it is
    a text that is no number makes [float] raise [ValueError], which
    [check_liquidity] does not catch; it returns nothing.  An integer too
    large for a float does the same with [OverflowError]. *)
Lemma C6_unparsable_liquidity_raises :
  ~ (forall (subnet : Subnet) (stake_amount min_ratio : float),
        (forall x, tao_in subnet <> Number x) ->
        exists liquidity reason,
          check_liquidity subnet stake_amount min_ratio
          = inr (false, liquidity, reason)).
Proof.
  intros H.
  destruct (H Sample.garbled 1%float 10%float) as (liquidity & reason & Hc).
  - intros x. discriminate.
  - vm_compute in Hc. discriminate Hc.
Qed.

(** The two exceptions [check_liquidity] lets through, and the two it
    turns into a result. *)
Example check_liquidity_on_unreadable_liquidity :
  check_liquidity Sample.garbled 1 10 = inl (ValueError "n/a") /\
  check_liquidity Sample.oversized 1 10 = inl OverflowError /\
  check_liquidity (Sample.subnet 1 "a" (Number 1) Absent (Number 1)) 1 10
  = inr (false, 0%float, "Unable to determine pool liquidity") /\
  check_liquidity (Sample.subnet 1 "b" (Number 1) NotANumber (Number 1)) 1 10
  = inr (false, 0%float, "Unable to determine pool liquidity").
Proof. vm_compute. repeat split. Qed.

(** C6 (amended).  [check_liquidity] applies its rules in order, on
    doubles.  A liquidity attribute that is absent or of no numeric type
    gives not-ok with the measured value 0.0 and the "unable to
    determine" reason; a value that [float] rejects with [ValueError] or
    [OverflowError] makes the call raise that error.  Otherwise [liquidity <= 0] gives
    not-ok; otherwise [liquidity < stake_amount * min_ratio], with the
    product rounded to a double, gives not-ok with a reason that contains
    the measured and the required value, both printed with two decimals;
    anything else, a NaN included, gives ok.  The result is a function of
    the liquidity reading and the two numbers alone, so equal inputs give
    equal outputs, and nothing is written. *)
Theorem C6_check_liquidity_rules (subnet : Subnet) (stake_amount min_ratio : float) :
  match py_float (tao_in subnet) with
  | inl AttributeError | inl TypeError =>
      check_liquidity subnet stake_amount min_ratio
      = inr (false, 0%float, "Unable to determine pool liquidity")
  | inl e => check_liquidity subnet stake_amount min_ratio = inl e
  | inr liquidity =>
      (Num.leb liquidity 0 = true ->
       check_liquidity subnet stake_amount min_ratio
       = inr (false, liquidity, "Pool has zero liquidity")) /\
      (Num.leb liquidity 0 = false ->
       Num.ltb liquidity (Num.mul stake_amount min_ratio) = true ->
       exists before between after,
         check_liquidity subnet stake_amount min_ratio
         = inr (false, liquidity,
                before +:+ Num.format_fixed 2 liquidity +:+ between
                  +:+ Num.format_fixed 2 (Num.mul stake_amount min_ratio)
                  +:+ after)) /\
      (Num.leb liquidity 0 = false ->
       Num.ltb liquidity (Num.mul stake_amount min_ratio) = false ->
       check_liquidity subnet stake_amount min_ratio
       = inr (true, liquidity, "OK"))
  end /\
  (forall other : Subnet,
      tao_in other = tao_in subnet ->
      check_liquidity other stake_amount min_ratio
      = check_liquidity subnet stake_amount min_ratio).
Proof.
  split.
  - unfold check_liquidity.
    destruct (tao_in subnet) as [| |text| |t]; simpl; try reflexivity.
    split; [|split].
    + intros Hle. rewrite Hle. reflexivity.
    + intros Hpos Hlt. rewrite Hpos, Hlt.
      exists "Pool: ", " TAO < ", " TAO required". reflexivity.
    + intros Hpos Hge. rewrite Hpos, Hge. reflexivity.
  - intros other Heq. unfold check_liquidity. rewrite Heq. reflexivity.
Qed.

(** C6 (amended), on a shallow pool and on a deep one. *)
Lemma C6_witness :
  (exists before between after,
      check_liquidity Sample.shallow 1 10
      = inr (false, 5%float,
             before +:+ "5.00" +:+ between +:+ "10.00" +:+ after)) /\
  check_liquidity Sample.alpha 1 10 = inr (true, 100%float, "OK").
Proof.
  pose proof (C6_check_liquidity_rules Sample.shallow 1 10) as [Hs _].
  pose proof (C6_check_liquidity_rules Sample.alpha 1 10) as [Ha _].
  simpl in Hs, Ha. split.
  - destruct Hs as (_ & Hlow & _). exact (Hlow eq_refl eq_refl).
  - destruct Ha as (_ & _ & Hok). exact (Hok eq_refl eq_refl).
Defined.

(** The requirement is the rounded product: a pool of 0.3 is refused a
    stake of 0.1 at ratio 3, and a pool of 11 admits 1.1 at ratio 10. *)
Example check_liquidity_rounds_the_requirement :
  check_liquidity (Sample.subnet 1 "a" (Number 1) (Number 0.3) (Number 1)) 0.1 3
  = inr (false, 0.3%float, "Pool: 0.30 TAO < 0.30 TAO required") /\
  check_liquidity (Sample.subnet 1 "b" (Number 1) (Number 11) (Number 1)) 1.1 10
  = inr (true, 11%float, "OK").
Proof. vm_compute. split; reflexivity. Qed.

(** A kept candidate passes the gate when the requirement is above
    zero. *)
Lemma kept_passes_gate (wl : list Z) (stake ratio : float) (c : Subnet) :
  Num.ltb 0 (Num.mul stake ratio) = true ->
  kept wl stake ratio c = true ->
  exists liquidity,
    tao_in c = Number liquidity /\
    check_liquidity c stake ratio = inr (true, liquidity, "OK").
Proof.
  intros Hreq Hkept.
  destruct (kept_readings _ _ _ _ Hkept) as (p & t & _ & _ & Ht & Hge).
  exists t. split; [assumption|]. unfold check_liquidity. rewrite Ht. simpl.
  destruct (Num.leb t 0) eqn:Hle.
  - rewrite (leb_ltb_trans _ _ _ Hle Hreq) in Hge. discriminate.
  - rewrite Hge. reflexivity.
Qed.

(** A candidate the whitelist selection returns passes the liquidity
    gate, when the requirement is above zero. *)
Lemma selected_passes_gate (wl : list Z) (stake ratio : float)
    (subnets : list Subnet) (c : Subnet) (msg : option string) :
  Num.ltb 0 (Num.mul stake ratio) = true ->
  select_result wl stake ratio subnets = inr (Some c, msg) ->
  exists liquidity,
    tao_in c = Number liquidity /\
    check_liquidity c stake ratio = inr (true, liquidity, "OK").
Proof.
  intros Hreq Hsel.
  apply select_result_Some in Hsel as (_ & _ & Hkept & _).
  eapply kept_passes_gate; eassumption.
Qed.

(** ** The blocks of [run] *)

Section RunFacts.

Variable w : World.
Variable config : Config.
Variable subtensor : Subtensor.

Lemma unlock_block_unfold :
  unlock_block w config =
    match unlock_coldkey w (wallet_name config) with
    | inl e => (Return 1, [UnlockColdkey (wallet_name config);
                           Log ERROR (WalletUnlockFailed e)])
    | inr wallet => (Next wallet, [UnlockColdkey (wallet_name config);
                                   Log INFO (WalletUnlocked (wallet_name config))])
    end.
Proof.
  unfold unlock_block, unlock_wallet.
  destruct (unlock_coldkey w (wallet_name config)); reflexivity.
Qed.

Lemma balance_block_unfold (wallet : Wallet) :
  balance_block w config subtensor wallet =
    let asked := GetBalance subtensor (coldkey_ss58_address wallet) in
    let need := Num.add (stake_amount config) 0.01 in
    match balance_of w subtensor (coldkey_ss58_address wallet) with
    | inl e => (Return 1, [asked; Log ERROR (FailedToCheckBalance e)])
    | inr balance =>
        if Num.ltb balance need
        then (Return 1, [asked; Log ERROR (InsufficientBalance balance need)])
        else (Next tt, [asked; Log INFO (WalletBalance balance)])
    end.
Proof.
  unfold balance_block.
  destruct (balance_of w subtensor (coldkey_ss58_address wallet)) as [e|b];
    [reflexivity|].
  simpl. destruct (Num.ltb b (Num.add (stake_amount config) 0.01)); reflexivity.
Qed.

Lemma target_block_unfold :
  target_block w config subtensor =
    match target_netuid config with
    | Some target =>
        match subnets_of w subtensor with
        | inl e => (Raise e, [Log INFO (TargetSubnet target); AllSubnets subtensor])
        | inr subnets =>
            match find (fun s => bool_decide (netuid s = target)) subnets with
            | None => (Return 1, [Log INFO (TargetSubnet target);
                                  AllSubnets subtensor;
                                  Log ERROR (SubnetNotFound target)])
            | Some subnet => (Next subnet, [Log INFO (TargetSubnet target);
                                            AllSubnets subtensor])
            end
        end
    | None =>
        match whitelist config with
        | [] => (Return 1, [Log ERROR NoTargetOrWhitelist])
        | _ :: _ =>
            let before := [Log INFO (SelectingBest (whitelist config));
                           AllSubnets subtensor] in
            match subnets_of w subtensor with
            | inl e => (Raise e, before)
            | inr subnets =>
                match select_result (whitelist config) (stake_amount config)
                        (min_liquidity_ratio config) subnets with
                | inl e => (Raise (FloatError e), before)
                | inr (None, error) =>
                    (Return 0, before ++ [Log WARNING (NoEligibleSubnets error)])
                | inr (Some subnet, _) => (Next subnet, before)
                end
            end
        end
    end.
Proof.
  unfold target_block, get_subnet_by_netuid, select_best_from_whitelist.
  destruct (target_netuid config) as [target|].
  - destruct (subnets_of w subtensor) as [e|subnets]; [reflexivity|].
    simpl. destruct (find _ subnets); reflexivity.
  - destruct (whitelist config) as [|n wl]; [reflexivity|].
    destruct (subnets_of w subtensor) as [e|subnets]; [reflexivity|].
    simpl. destruct (select_result _ _ _ subnets) as [e|[[s|] error]]; reflexivity.
Qed.

Lemma price_block_unfold (subnet : Subnet) :
  price_block subnet =
    match price subnet with
    | Number p => (Next tt, [Log INFO (SubnetPrice (netuid subnet)
                                         (subnet_name subnet) p)])
    | _ => (Return 1, [Log ERROR InvalidPriceData])
    end.
Proof. unfold price_block. destruct (price subnet); reflexivity. Qed.

Lemma stake_block_unfold (wallet : Wallet) (subnet : Subnet) :
  stake_block w config subtensor wallet subnet =
    let amount := stake_amount config in
    match check_liquidity subnet amount (min_liquidity_ratio config) with
    | inl e => (Raise (FloatError e), [])
    | inr (false, _, liquidity_msg) =>
        (Return 0, [Log INFO (LiquidityCheck liquidity_msg);
                    Log WARNING SkippingStake])
    | inr (true, _, liquidity_msg) =>
        if dry_run config then
          (Return 0, [Log INFO (LiquidityCheck liquidity_msg);
                      Log INFO (DryRunWouldStake amount (netuid subnet))])
        else
          let before := [Log INFO (LiquidityCheck liquidity_msg);
                         Log INFO (ExecutingStake amount (netuid subnet));
                         AddStake subtensor (netuid subnet) amount] in
          match add_stake w subtensor wallet (validator_hotkey config)
                  (netuid subnet) amount with
          | inr true =>
              (Return 0, before ++ [Log INFO (StakeSuccess amount (netuid subnet)
                                                (subnet_name subnet))])
          | inr false => (Return 1, before ++ [Log ERROR StakeReturnedFailure])
          | inl e => (Return 1, before ++ [Log ERROR (StakeFailed e)])
          end
    end.
Proof.
  unfold stake_block, execute_stake. cbv zeta.
  destruct (check_liquidity subnet (stake_amount config)
              (min_liquidity_ratio config)) as [e|[[ok t] msg]]; [reflexivity|].
  destruct ok; [|reflexivity]. simpl.
  destruct (dry_run config); [reflexivity|].
  destruct (add_stake w subtensor wallet (validator_hotkey config)
              (netuid subnet) (stake_amount config)) as [e|[|]]; reflexivity.
Qed.

End RunFacts.

(** ** Sequencing *)

Lemma fst_bind {R A B} (m : M R A) (k : A -> M R B) :
  fst (bind m k) =
    match fst m with
    | Next a => fst (k a)
    | Return r => Return r
    | Raise e => Raise e
    end.
Proof.
  destruct m as [[a|r|e] t]; simpl; [|reflexivity..].
  destruct (k a); reflexivity.
Qed.

Lemma snd_bind {R A B} (m : M R A) (k : A -> M R B) :
  snd (bind m k) =
    snd m ++ match fst m with
             | Next a => snd (k a)
             | _ => []
             end.
Proof.
  destruct m as [[a|r|e] t]; simpl; [|rewrite app_nil_r; reflexivity..].
  destruct (k a); reflexivity.
Qed.

Lemma skips_app t1 t2 : skips (t1 ++ t2) = (skips t1 + skips t2)%nat.
Proof.
  induction t1 as [|ev t1 IH]; [reflexivity|].
  destruct ev as [[] [] | | | | | | | | | |]; simpl; rewrite IH; reflexivity.
Qed.

Lemma connection_phase_skips t : Forall connection_phase t -> skips t = O.
Proof.
  induction 1 as [|ev t Hev _ IH]; [reflexivity|].
  destruct ev as [[] [] | | | | | | | | | |]; simpl in *; auto; contradiction.
Qed.

(** ** The guarded part of [run] *)

Section GuardedFacts.

Variable w : World.
Variable config : Config.
Variable subtensor : Subtensor.

(** Stepping through the blocks of [run_guarded] in program order. *)
Ltac enter_guarded :=
  unfold run_guarded;
  rewrite ?fst_bind, ?snd_bind, ?fst_bind;
  rewrite unlock_block_unfold;
  destruct (unlock_coldkey w (wallet_name config)) as [e_unlock|wallet];
  cbn [fst snd];
  [| rewrite ?fst_bind, ?snd_bind, ?fst_bind, balance_block_unfold; cbv zeta;
     match goal with
     | |- context [balance_of ?a ?b ?c] =>
         destruct (balance_of a b c) as [e_balance|balance]
     end;
     cbn [fst snd];
     [| match goal with
        | |- context [Num.ltb ?a ?b] => destruct (Num.ltb a b) eqn:Hbalance
        end;
        cbn [fst snd];
        [| rewrite ?fst_bind, ?snd_bind, ?fst_bind, target_block_unfold ]]].

Ltac leave_guarded subnet :=
  cbn [fst snd];
  rewrite ?fst_bind, ?snd_bind, ?fst_bind, price_block_unfold;
  destruct (price subnet) as [| |price_text| |p] eqn:Hprice; cbn [fst snd];
  [| | | | rewrite stake_block_unfold; cbv zeta;
         destruct (check_liquidity subnet (stake_amount config)
                     (min_liquidity_ratio config))
           as [e_liquidity|[[[|] tao_in_pool] liquidity_msg]] eqn:Hliquidity;
         cbn [fst snd];
         [| destruct (dry_run config) eqn:Hdry; cbn [fst snd];
            [| match goal with
               | |- context [add_stake ?a ?b ?c ?d ?e ?f] =>
                   destruct (add_stake a b c d e f) as [e_stake|[|]] eqn:Hstake
               end;
               cbn [fst snd] ]
          |]].

(** The exit code of the guarded part is the one the outcome classes
    prescribe. *)
Lemma run_guarded_status :
  status (fst (run_guarded w config subtensor))
  = spec_exit_code (connected_outcome script_contract w config subtensor).
Proof.
  unfold connected_outcome.
  enter_guarded; try reflexivity.
  unfold resolution_outcome. cbv zeta.
  destruct (target_netuid config) as [target|].
  - cbn [script_contract both_is_error andb].
    destruct (subnets_of w subtensor) as [e|subnets]; [reflexivity|].
    destruct (find _ subnets) as [subnet|]; [|reflexivity].
    unfold gate_outcome. cbn [script_contract valid_price verdict].
    leave_guarded subnet; reflexivity.
  - destruct (whitelist config) as [|n wl]; [reflexivity|].
    destruct (subnets_of w subtensor) as [e|subnets]; [reflexivity|].
    cbn [script_contract select].
    destruct (select_result _ _ _ subnets) as [e|[[subnet|] error]];
      [reflexivity| |reflexivity].
    unfold gate_outcome. cbn [script_contract valid_price verdict].
    leave_guarded subnet; reflexivity.
Qed.

(** Nothing inside the guarded part closes the connection. *)
Lemma run_guarded_closes :
  closes (snd (run_guarded w config subtensor)) = O.
Proof.
  enter_guarded; try reflexivity.
  cbv zeta.
  destruct (target_netuid config) as [target|].
  - destruct (subnets_of w subtensor) as [e|subnets]; [reflexivity|].
    destruct (find _ subnets) as [subnet|]; [|reflexivity].
    leave_guarded subnet; reflexivity.
  - destruct (whitelist config) as [|n wl]; [reflexivity|].
    destruct (subnets_of w subtensor) as [e|subnets]; [reflexivity|].
    destruct (select_result _ _ _ subnets) as [e|[[subnet|] error]];
      [reflexivity| |reflexivity].
    leave_guarded subnet; reflexivity.
Qed.


End GuardedFacts.

(** In whitelist mode the guarded part never skips for liquidity, when
    the requirement is above zero. *)
Lemma run_guarded_whitelist_skips (w : World) (config : Config)
    (subtensor : Subtensor) :
  Num.ltb 0 (Num.mul (stake_amount config) (min_liquidity_ratio config)) = true ->
  target_netuid config = None ->
  skips (snd (run_guarded w config subtensor)) = O.
Proof.
  intros Hreq Htarget.
  unfold run_guarded. rewrite snd_bind, unlock_block_unfold.
  destruct (unlock_coldkey w (wallet_name config)) as [e|wallet];
    [reflexivity|]. cbn [fst snd].
  rewrite snd_bind, balance_block_unfold. cbv zeta.
  destruct (balance_of w subtensor (coldkey_ss58_address wallet)) as [e|balance];
    [reflexivity|].
  destruct (Num.ltb balance (Num.add (stake_amount config) 0.01)); [reflexivity|].
  cbn [fst snd]. rewrite snd_bind, target_block_unfold, Htarget. cbv zeta.
  destruct (whitelist config) as [|n wl] eqn:Hwl; [reflexivity|].
  destruct (subnets_of w subtensor) as [e|subnets]; [reflexivity|].
  destruct (select_result (n :: wl) (stake_amount config)
              (min_liquidity_ratio config) subnets)
    as [e|[[subnet|] error]] eqn:Hsel; [reflexivity| |reflexivity].
  destruct (selected_passes_gate _ _ _ _ _ _ Hreq Hsel)
    as (liquidity & _ & Hok).
  cbn [fst snd]. rewrite snd_bind, price_block_unfold.
  destruct (price subnet) as [| |price_text| |p]; [reflexivity..|].
  cbn [fst snd]. rewrite stake_block_unfold. cbv zeta. rewrite Hok.
  destruct (dry_run config); [reflexivity|].
  destruct (add_stake w subtensor wallet (validator_hotkey config)
              (netuid subnet) (stake_amount config)) as [e|[|]]; reflexivity.
Qed.

(** ** [run] as a whole *)

Lemma run_unfold (w : World) (config : Config) :
  run w config =
    match connect_to_bittensor w (network config) with
    | (Return subtensor, t) =>
        (fst (run_guarded w config subtensor),
         t ++ snd (run_guarded w config subtensor) ++ [Close subtensor])
    | (Raise (ConnectionError last_error), t) =>
        (Return 1, t ++ [Log ERROR (ConnectionFailed (ConnectionError last_error))])
    | (Raise e, t) => (Raise e, t ++ [])
    | (Next v, _) => match v with end
    end.
Proof.
  unfold run.
  destruct (connect_to_bittensor w (network config)) as [[v|subtensor|e] t].
  - destruct v.
  - simpl. destruct (run_guarded w config subtensor) as [r tg]. reflexivity.
  - destruct e; reflexivity.
Qed.

Lemma run_status (w : World) (config : Config) :
  status (fst (run w config))
  = spec_exit_code (run_outcome script_contract w config).
Proof.
  rewrite run_unfold. unfold run_outcome.
  destruct (connect_to_bittensor_spec w (network config))
    as (_ & [(n & e & Hr & _) | (pre & n & post & j & _ & _ & Hr & _)]).
  - destruct (connect_to_bittensor w (network config)) as [r t].
    simpl in Hr. subst r. reflexivity.
  - destruct (connect_to_bittensor w (network config)) as [r t].
    simpl in Hr. subst r. cbn [fst]. apply run_guarded_status.
Qed.

(** [main], statement by statement. *)
Lemma main_unfold (w : World) (args : Args) :
  main w args =
    match load_config w (config_path args) with
    | (Return loaded, t) =>
        let config := if cli_dry_run args then with_dry_run loaded else loaded in
        let opened := t ++ [SetupLogging (log_file config)] in
        match setup_log w (log_file config) with
        | Some e => (Raise e, opened)
        | None =>
            let started :=
              opened ++ [Log INFO Banner; Log INFO StartingRun]
                ++ (if dry_run config then [Log INFO DryRunMode] else []) in
            match run w config with
            | (Return exit_code, t') =>
                (Return exit_code,
                 started ++ t' ++ [Log INFO (Finished exit_code)])
            | (Raise e, t') => (Raise e, started ++ t')
            | (Next v, _) => match v with end
            end
        end
    | (Raise e, t) => (Return 1, t ++ [Stderr e])
    | (Next v, _) => match v with end
    end.
Proof.
  unfold main, setup_logging.
  destruct (load_config w (config_path args)) as [[v|loaded|e] t];
    [destruct v| |reflexivity].
  cbn [call try_except bind]. cbv zeta.
  set (config := if cli_dry_run args then with_dry_run loaded else loaded).
  destruct (setup_log w (log_file config)) as [e|]; [reflexivity|].
  destruct (dry_run config); simpl;
    destruct (run w config) as [[v|code|e] t'];
    solve [destruct v | simpl; rewrite <- ?app_assoc; reflexivity].
Qed.

(** ** Claims on the orchestrator *)




(** C5, as stated, fails: the exit status is not always the exit code of
    the outcome the specification's steps prescribe.  With the explicit
    target 9, whose price is 0 and so no positive number, step 6 makes
    the run a Failure, while the script exits with 0. *)
Lemma C5_nonpositive_price_is_not_fatal :
  ~ (forall (w : World) (args : Args),
        exit_status (main w args) = spec_exit_code (spec_outcome w args)).
Proof.
  intros H.
  specialize (H (Sample.world Sample.always_up [Sample.pool9] 5 (inr true)
                   (Sample.config (Some 9) [] false))
                Sample.args).
  vm_compute in H. discriminate H.
Qed.

(** The run of that counterexample: the price is not valid, the outcome
    prescribed is Failure, and the script stakes 1 TAO on subnet 9 and
    exits with 0. *)
Example explicit_target_at_price_zero :
  let cfg := Sample.config (Some 9) [] false in
  let w := Sample.world Sample.always_up [Sample.pool9] 5 (inr true) cfg in
  price_ok Sample.pool9 = false /\
  spec_outcome w Sample.args = Failure /\
  exit_status (main w Sample.args) = 0 /\
  staked (trace_of (main w Sample.args)) = [(9, 1%float)].
Proof. vm_compute. repeat split. Qed.

(** C5 (amended).  The exit status of the process is the exit code of
    the outcome class of the steps as the script takes them: 0 when the
    run succeeds (the stake call reports success, or a dry run) or skips
    gracefully (the selection returns no candidate in whitelist mode,
    [check_liquidity] returns not-ok), and 1 on every failure:
    configuration that cannot be loaded or names no target, log that
    cannot be opened, no connection, wallet that cannot be unlocked,
    balance unreadable or below the stake plus 0.01 as doubles,
    candidates that cannot be fetched, target id not found, liquidity
    that makes the selection or [check_liquidity] raise, price that
    [float] cannot convert, stake call that returns false or raises.  A
    price of zero or less is no failure in explicit-id mode. *)
Theorem C5_exit_code_contract (w : World) (args : Args) :
  exit_status (main w args) = spec_exit_code (script_outcome w args) /\
  (exit_status (main w args) = 0 \/ exit_status (main w args) = 1) /\
  (exit_status (main w args) = 0 <-> script_outcome w args <> Failure) /\
  forall config,
    status (fst (run w config))
    = spec_exit_code (run_outcome script_contract w config).
Proof.
  assert (Hmain : exit_status (main w args)
                  = spec_exit_code (script_outcome w args)).
  { unfold exit_status, script_outcome, outcome. rewrite main_unfold.
    destruct (load_config w (config_path args)) as [[v|loaded|e] t];
      [destruct v| |reflexivity].
    cbv zeta. cbn [fst].
    set (config := if cli_dry_run args then with_dry_run loaded else loaded).
    destruct (setup_log w (log_file config)) as [e|]; [reflexivity|].
    rewrite <- (run_status w config).
    destruct (run w config) as [[v|code|e] t'];
      solve [destruct v | reflexivity]. }
  split; [exact Hmain|]. split; [|split].
  - rewrite Hmain. destruct (script_outcome w args); auto.
  - rewrite Hmain. destruct (script_outcome w args); simpl;
      split; congruence.
  - intros config. apply run_status.
Qed.

(** C5 (amended), on the explicit target at price zero. *)
Lemma C5_witness :
  exit_status (main (Sample.world Sample.always_up [Sample.pool9] 5 (inr true)
                       (Sample.config (Some 9) [] false))
                    Sample.args)
  = spec_exit_code
      (script_outcome (Sample.world Sample.always_up [Sample.pool9] 5 (inr true)
                         (Sample.config (Some 9) [] false))
                      Sample.args).
Proof.
  exact (proj1 (C5_exit_code_contract
                  (Sample.world Sample.always_up [Sample.pool9] 5 (inr true)
                     (Sample.config (Some 9) [] false))
                  Sample.args)).
Defined.

(** C9.  When a connection is established its [close()] is awaited
    exactly once, as the last thing the run does, whatever the run
    returns or raises; when no connection is established nothing is
    closed. *)
Theorem C9_connection_released_once (w : World) (config : Config) :
  match fst (connect_to_bittensor w (network config)) with
  | Return subtensor =>
      closes (trace_of (run w config)) = 1%nat /\
      exists before,
        trace_of (run w config) = before ++ [Close subtensor] /\
        closes before = O
  | _ => closes (trace_of (run w config)) = O
  end.
Proof.
  unfold trace_of. rewrite run_unfold.
  destruct (connect_to_bittensor_spec w (network config))
    as (Hphase & [(n & e & Hr & _) | (pre & n & post & j & _ & _ & Hr & _)]);
    destruct (connect_to_bittensor w (network config)) as [r t];
    simpl in Hr, Hphase; subst r; cbn [fst snd].
  - rewrite closes_app, (connection_phase_closes t Hphase). reflexivity.
  - pose proof (run_guarded_closes w config {| connected_to := n |}) as Hguard.
    split.
    + rewrite !closes_app, (connection_phase_closes t Hphase), Hguard.
      reflexivity.
    + exists (t ++ snd (run_guarded w config {| connected_to := n |})).
      split; [rewrite <- app_assoc; reflexivity|].
      rewrite closes_app, (connection_phase_closes t Hphase), Hguard.
      reflexivity.
Qed.

(** C10, as stated, fails: a stake and a ratio that are both above zero
    can have a product that rounds to zero.  A pool without liquidity
    then passes the selection, whose test is [tao_in_pool < 0.0], and
    fails [check_liquidity], whose first test is [tao_in_pool <= 0]. *)
Lemma C10_selected_candidate_can_fail_gate :
  ~ (forall (wl : list Z) (stake ratio : float) (subnets : list Subnet)
            (c : Subnet) (msg : option string),
        Num.ltb 0 stake = true -> Num.ltb 0 ratio = true ->
        select_result wl stake ratio subnets = inr (Some c, msg) ->
        exists liquidity,
          check_liquidity c stake ratio = inr (true, liquidity, "OK")).
Proof.
  intros H.
  destruct (H [6] 1e-200%float 1e-200%float [Sample.drained] Sample.drained None)
    as (liquidity & Hc); try (vm_compute; reflexivity).
  vm_compute in Hc. discriminate Hc.
Qed.

(** The run of that counterexample skips for liquidity in whitelist
    mode. *)
Example whitelist_run_skips_on_rounded_requirement :
  let cfg := Sample.config_of 1e-200 1e-200 None [6] false in
  let w := Sample.world Sample.always_up [Sample.drained] 5 (inr true) cfg in
  Num.eqb (Num.mul (stake_amount cfg) (min_liquidity_ratio cfg)) 0 = true /\
  skips (trace_of (run w cfg)) = 1%nat /\
  fst (run w cfg) = Return 0.
Proof. vm_compute. repeat split. Qed.

(** C10 (amended).  When the requirement [stake_amount *
    min_liquidity_ratio], as the double the script computes, is above
    zero, every candidate the whitelist selection returns passes
    [check_liquidity] at the same stake and ratio, so a run in whitelist
    mode never logs the liquidity skip; a run in explicit-id mode can. *)
Theorem C10_selected_candidate_passes_gate (w : World) (config : Config) :
  Num.ltb 0 (Num.mul (stake_amount config) (min_liquidity_ratio config)) = true ->
  (forall wl subnets c msg,
      select_result wl (stake_amount config) (min_liquidity_ratio config) subnets
      = inr (Some c, msg) ->
      exists liquidity,
        check_liquidity c (stake_amount config) (min_liquidity_ratio config)
        = inr (true, liquidity, "OK")) /\
  (target_netuid config = None -> skips (trace_of (run w config)) = O) /\
  skips (trace_of (run (Sample.world Sample.always_up [Sample.shallow] 5
                          (inr true) (Sample.config (Some 5) [] false))
                       (Sample.config (Some 5) [] false))) = 1%nat.
Proof.
  intros Hreq. split; [|split].
  - intros wl subnets c msg Hsel.
    destruct (selected_passes_gate _ _ _ _ _ _ Hreq Hsel)
      as (liquidity & _ & Hok).
    exists liquidity. exact Hok.
  - intros Htarget. unfold trace_of. rewrite run_unfold.
    destruct (connect_to_bittensor_spec w (network config))
      as (Hphase & [(n & e & Hr & _) | (pre & n & post & j & _ & _ & Hr & _)]);
      destruct (connect_to_bittensor w (network config)) as [r t];
      simpl in Hr, Hphase; subst r; cbn [fst snd].
    + rewrite skips_app, (connection_phase_skips t Hphase). reflexivity.
    + rewrite !skips_app, (connection_phase_skips t Hphase).
      rewrite (run_guarded_whitelist_skips w config _ Hreq Htarget).
      reflexivity.
  - vm_compute. reflexivity.
Qed.

(** C10 (amended), on a whitelist run over a shallow and a deep pool. *)
Lemma C10_witness :
  skips (trace_of (run (Sample.world Sample.always_up
                          [Sample.shallow; Sample.alpha] 5 (inr true)
                          (Sample.config None [1; 5] false))
                       (Sample.config None [1; 5] false))) = O.
Proof.
  apply (C10_selected_candidate_passes_gate
           (Sample.world Sample.always_up [Sample.shallow; Sample.alpha] 5
              (inr true) (Sample.config None [1; 5] false))
           (Sample.config None [1; 5] false));
    reflexivity.
Defined.

(** ** The configuration loader and the end-to-end scenarios *)

(** A document without one of the three required keys is rejected. *)
Lemma load_config_missing_required (w : World) (path : string) (data : Yaml) :
  read_yaml w path = Some (inr data) ->
  yaml_wallet_name data = None \/ yaml_validator_hotkey data = None
    \/ yaml_stake_amount data = None ->
  exists e, fst (load_config w path) = Raise e.
Proof.
  intros Hread Hmissing. unfold load_config. rewrite Hread. simpl.
  destruct (yaml_wallet_name data); [|eexists; reflexivity].
  destruct (yaml_validator_hotkey data); [|eexists; reflexivity].
  destruct (yaml_stake_amount data); [|eexists; reflexivity].
  destruct Hmissing as [H | [H | H]]; discriminate H.
Qed.

(** Scenario A: explicit target 5, price 0.02, liquidity 100, stake 1,
    ratio 10, dry run: exit 0 and no stake is submitted. *)
Example scenario_A :
  let cfg := Sample.config (Some 5) [] true in
  let m := main (Sample.world Sample.always_up [Sample.pool5] 5 (inr true) cfg)
                Sample.args in
  exit_status m = 0 /\ stakes (trace_of m) = O.
Proof. vm_compute. split; reflexivity. Qed.

(** Scenario B: whitelist 3 and 7; pool 3 is too shallow, whatever its
    score, and pool 7 is selected. *)
Example scenario_B :
  select_result [3; 7] 1 10 [Sample.pool3; Sample.pool7]
  = inr (Some Sample.pool7, None).
Proof. vm_compute. reflexivity. Qed.

(** Scenario C: whitelist 9, pool 9 has price 0: no candidate, exit 0. *)
Example scenario_C :
  let cfg := Sample.config None [9] false in
  let m := main (Sample.world Sample.always_up [Sample.pool9] 5 (inr true) cfg)
                Sample.args in
  exit_status m = 0 /\ stakes (trace_of m) = O /\ fetches (trace_of m) = 1%nat.
Proof. vm_compute. repeat split. Qed.

(** Scenario D: balance 0.5 for a stake of 1: exit 1 before any
    candidate is fetched. *)
Example scenario_D :
  let cfg := Sample.config (Some 5) [] false in
  let m := main (Sample.world Sample.always_up [Sample.pool5] 0.5 (inr true) cfg)
                Sample.args in
  exit_status m = 1 /\ fetches (trace_of m) = O.
Proof. vm_compute. split; reflexivity. Qed.

(** A configuration file without [stake_amount]: exit 1, no connection. *)
Example scenario_missing_stake :
  let w := {| read_yaml := fun _ => Some (inr Sample.yaml_without_stake);
              setup_log := fun _ => None;
              dial := Sample.always_up;
              unlock_coldkey := fun _ => inr Sample.wallet;
              balance_of := fun _ _ => inr 5%float;
              subnets_of := fun _ => inr [Sample.alpha];
              add_stake := fun _ _ _ _ _ => inr true |} in
  exit_status (main w Sample.args) = 1 /\ opens (trace_of (main w Sample.args)) = [].
Proof. vm_compute. split; reflexivity. Qed.

(** The balance test is made on doubles: 0.21 is below 0.2 + 0.01, and
    5.01 is not below 5.0 + 0.01. *)
Example balance_test_on_doubles :
  let low := Sample.config_of 0.2 10 (Some 1) [] true in
  let high := Sample.config_of 5 10 (Some 1) [] true in
  exit_status (main (Sample.world Sample.always_up [Sample.alpha] 0.21
                       (inr true) low) Sample.args) = 1 /\
  exit_status (main (Sample.world Sample.always_up [Sample.alpha] 5.01
                       (inr true) high) Sample.args) = 0.
Proof. vm_compute. split; reflexivity. Qed.

(** A log file that cannot be opened: the exception of [setup_logging]
    ends the process with status 1 before anything is logged and before
    any client is constructed. *)
Example scenario_log_cannot_be_opened :
  let cfg := Sample.config (Some 1) [] false in
  let w := Sample.without_log
             (Sample.world Sample.always_up [Sample.alpha] 5 (inr true) cfg) in
  exit_status (main w Sample.args) = 1 /\
  script_outcome w Sample.args = Failure /\
  trace_of (main w Sample.args)
  = [ReadConfig "config.yaml"; SetupLogging "logs/dca.log"].
Proof. vm_compute. repeat split. Qed.

(** A liquidity that is a text and no number: in whitelist mode the
    selection raises, in explicit-id mode [check_liquidity] does; the
    connection is closed and the process ends with status 1, without the
    record "Finished with exit code". *)
Example scenario_unparsable_liquidity :
  let by_whitelist := Sample.config None [8] false in
  let by_id := Sample.config (Some 8) [] false in
  let run_of cfg :=
    main (Sample.world Sample.always_up [Sample.garbled] 5 (inr true) cfg)
         Sample.args in
  fst (run_of by_whitelist) = Raise (FloatError (ValueError "n/a")) /\
  fst (run_of by_id) = Raise (FloatError (ValueError "n/a")) /\
  exit_status (run_of by_whitelist) = 1 /\
  exit_status (run_of by_id) = 1 /\
  last (trace_of (run_of by_whitelist))
  = Some (Close {| connected_to := "finney" |}) /\
  last (trace_of (run_of by_id)) = Some (Close {| connected_to := "finney" |}).
Proof. vm_compute. repeat split. Qed.

(** * Further properties of the script *)

(** ** Whitelist selection *)

(** X1.  [select_best_from_whitelist] answers "No eligible subnets in
    whitelist" exactly when no candidate makes the loop raise and no
    candidate that passes the tests of the loop scores above zero. *)
Theorem X1_no_eligible_exactly_without_positive_score
    (wl : list Z) (stake ratio : float) (l : list Subnet) :
  select_result wl stake ratio l
  = inr (None, Some "No eligible subnets in whitelist")
  <-> (forall x, x ∈ l -> breaks wl x = false) /\
      (forall x, x ∈ l -> kept wl stake ratio x = true ->
                 Num.ltb 0 (score x) = false).
Proof.
  split.
  - intros H. apply select_result_None in H as (_ & Hall & Hle). auto.
  - intros [Hall Hle]. apply select_result_no_positive; assumption.
Qed.

(** X2.  A candidate that [select_best_from_whitelist] returns comes from
    the fetched list, is whitelisted, has a price for which [price <= 0]
    is false and a liquidity for which [tao_in_pool < stake_amount *
    min_liquidity_ratio] is false, scores above zero, and no candidate
    that passes the tests of the loop scores higher; the error slot is
    empty. *)
Theorem X2_selected_is_eligible_and_best
    (wl : list Z) (stake ratio : float) (l : list Subnet) (c : Subnet)
    (msg : option string) :
  select_result wl stake ratio l = inr (Some c, msg) ->
  msg = None /\ c ∈ l /\ netuid c ∈ wl /\
  (exists p t, price c = Number p /\ Num.leb p 0 = false /\
               tao_in c = Number t /\
               Num.ltb t (Num.mul stake ratio) = false) /\
  Num.ltb 0 (score c) = true /\
  (forall x, x ∈ l -> kept wl stake ratio x = true ->
             Num.ltb (score c) (score x) = false).
Proof.
  intros Hsel.
  apply select_result_Some in Hsel
    as (-> & _ & Hc & Hpos & Htop & l1 & l2 & -> & _).
  split; [reflexivity|]. split.
  { apply elem_of_app. right. apply elem_of_cons. auto. }
  split; [eapply kept_in_whitelist; eassumption|].
  split; [eapply kept_readings; eassumption|].
  split; assumption.
Qed.

(** X2, on a shallow pool, two tied pools and a better one. *)
Lemma X2_witness :
  Num.ltb 0 (score Sample.gamma) = true /\
  forall x,
    x ∈ [Sample.shallow; Sample.alpha; Sample.gamma; Sample.beta] ->
    kept [1; 2; 3; 5] 1 10 x = true ->
    Num.ltb (score Sample.gamma) (score x) = false.
Proof.
  pose proof (X2_selected_is_eligible_and_best [1; 2; 3; 5] 1 10
                [Sample.shallow; Sample.alpha; Sample.gamma; Sample.beta]
                Sample.gamma None eq_refl) as H.
  split; apply H.
Defined.

(** X3.  Candidates on which the loop takes a [continue] have no
    influence: selecting from the fetched list and selecting from the
    candidates that reach the scoring or raise give the same result. *)
Theorem X3_non_survivors_are_irrelevant
    (wl : list Z) (stake ratio : float) (l : list Subnet) :
  select_result wl stake ratio l
  = select_result wl stake ratio
      (filter (fun s => kept wl stake ratio s || breaks wl s = true) l).
Proof.
  unfold select_result, select_loop.
  assert (H : forall st,
             select_from wl stake ratio st l
             = select_from wl stake ratio st
                 (filter (fun s => kept wl stake ratio s || breaks wl s = true) l)).
  { induction l as [|a l IH]; intros st; [reflexivity|].
    rewrite filter_cons.
    destruct (decide (kept wl stake ratio a || breaks wl a = true)) as [Ha | Ha].
    - simpl. destruct (select_step wl stake ratio st a); [reflexivity | apply IH].
    - apply not_true_is_false, orb_false_elim in Ha as [Hk Hb].
      apply breaks_false in Hb.
      simpl. rewrite select_step_unfold, Hb, advance_discard by assumption.
      apply IH. }
  rewrite H. reflexivity.
Qed.

(** X4.  Widening the whitelist or lowering the required liquidity never
    makes the selection worse, as long as the wider whitelist brings in
    no candidate that makes the loop raise: if a candidate was returned
    before, one is returned after, and it scores at least as high. *)
Theorem X4_selection_is_monotone
    (wl wl' : list Z) (stake ratio stake' ratio' : float) (l : list Subnet)
    (c : Subnet) (msg : option string) :
  wl ⊆ wl' ->
  Num.leb (Num.mul stake' ratio') (Num.mul stake ratio) = true ->
  (forall x, x ∈ l -> breaks wl' x = false) ->
  select_result wl stake ratio l = inr (Some c, msg) ->
  exists c',
    select_result wl' stake' ratio' l = inr (Some c', None) /\
    Num.leb (score c) (score c') = true.
Proof.
  intros Hsub Hreq Hall Hsel.
  apply select_result_Some in Hsel
    as (_ & _ & Hkept & Hpos & _ & l1 & l2 & Hl & _).
  assert (Hin : c ∈ l).
  { rewrite Hl. apply elem_of_app. right. apply elem_of_cons. auto. }
  assert (Hkept' : kept wl' stake' ratio' c = true).
  { pose proof (kept_in_whitelist _ _ _ _ Hkept) as Hwl.
    destruct (kept_readings _ _ _ _ Hkept) as (p & t & Hp & Hple & Ht & Hge).
    unfold kept, reaches_liquidity, in_whitelist.
    rewrite Hp, Ht, Hple. simpl.
    rewrite bool_decide_eq_true_2 by (apply Hsub; exact Hwl). simpl.
    destruct (Num.ltb t (Num.mul stake' ratio')) eqn:E; [|reflexivity].
    rewrite (ltb_leb_trans _ _ _ E Hreq) in Hge. discriminate. }
  destruct (select_result wl' stake' ratio' l) as [e|[[c'|] msg']] eqn:E.
  - assert (Hex : exists e, select_result wl' stake' ratio' l = inl e)
      by eauto.
    apply select_result_raises in Hex as (x & Hx & Hb).
    rewrite Hall in Hb by assumption. discriminate.
  - apply select_result_Some in E as (-> & _ & _ & Hpos' & Htop & _).
    exists c'. split; [reflexivity|].
    apply (not_ltb_leb _ _ 0%float 0%float); auto.
  - apply select_result_None in E as (_ & _ & Hle).
    rewrite Hle in Hpos by assumption. discriminate.
Qed.

(** X4, on a stake lowered from 5 to 0.5 and a whitelist widened by 3. *)
Lemma X4_witness :
  exists c',
    select_result [3; 7] 0.5 10 [Sample.pool3; Sample.pool7]
    = inr (Some c', None) /\
    Num.leb (score Sample.pool7) (score c') = true.
Proof.
  apply (X4_selection_is_monotone [7] [3; 7] 5 10 0.5 10
           [Sample.pool3; Sample.pool7] Sample.pool7 None).
  - intros x Hx. apply elem_of_cons. right. exact Hx.
  - vm_compute. reflexivity.
  - intros x Hx. apply elem_of_cons in Hx as [-> | Hx];
      [|apply list_elem_of_singleton in Hx as ->]; reflexivity.
  - vm_compute. reflexivity.
Defined.

(** ** The liquidity gate *)

(** X6.  The gate is monotone: a pool that passes still passes with more
    liquidity or with a smaller requirement. *)
Theorem X6_check_liquidity_is_monotone
    (subnet subnet' : Subnet) (t t' stake ratio stake' ratio' : float) :
  tao_in subnet = Number t -> tao_in subnet' = Number t' ->
  Num.leb t t' = true ->
  Num.leb (Num.mul stake' ratio') (Num.mul stake ratio) = true ->
  passes subnet stake ratio = true ->
  check_liquidity subnet' stake' ratio' = inr (true, t', "OK").
Proof.
  intros Ht Ht' Hmore Hless Hok.
  unfold passes, check_liquidity in *. rewrite Ht in Hok. rewrite Ht'.
  simpl in *.
  destruct (Num.leb t 0) eqn:Hle; [discriminate|].
  destruct (Num.ltb t (Num.mul stake ratio)) eqn:Hlt; [discriminate|].
  destruct (Num.leb t' 0) eqn:Hle'.
  { rewrite (leb_trans _ _ _ Hmore Hle') in Hle. discriminate. }
  destruct (Num.ltb t' (Num.mul stake' ratio')) eqn:Hlt'; [|reflexivity].
  rewrite (ltb_leb_trans _ _ _ (leb_ltb_trans _ _ _ Hmore Hlt') Hless) in Hlt.
  discriminate.
Qed.

(** X6, from pool 7 at a stake of 5 to pool 5 at a stake of 1. *)
Lemma X6_witness :
  check_liquidity Sample.pool5 1 10 = inr (true, 100%float, "OK").
Proof.
  apply (X6_check_liquidity_is_monotone Sample.pool7 Sample.pool5 50 100 5 10 1 10);
    vm_compute; reflexivity.
Defined.

(** X7.  When the requirement [stake_amount * min_liquidity_ratio], as
    the double the script computes, is above zero, the tests of the
    selection loop and the gate agree: a candidate reaches the scoring
    exactly when it is whitelisted, [price <= 0] is false of its price
    and [check_liquidity] says ok. *)
Theorem X7_filters_agree_with_gate
    (wl : list Z) (stake ratio : float) (s : Subnet) :
  Num.ltb 0 (Num.mul stake ratio) = true ->
  (kept wl stake ratio s = true <->
   netuid s ∈ wl /\
   (exists p, price s = Number p /\ Num.leb p 0 = false) /\
   passes s stake ratio = true).
Proof.
  intros Hreq. split.
  - intros Hkept. split; [eapply kept_in_whitelist; eassumption|]. split.
    + destruct (kept_readings _ _ _ _ Hkept) as (p & t & Hp & Hple & _).
      exists p. auto.
    + destruct (kept_passes_gate _ _ _ _ Hreq Hkept) as (t & _ & Hok).
      unfold passes. rewrite Hok. reflexivity.
  - intros (Hwl & (p & Hp & Hple) & Hok).
    unfold kept, reaches_liquidity, in_whitelist.
    rewrite bool_decide_eq_true_2, Hp, Hple by assumption. simpl.
    unfold passes, check_liquidity in Hok.
    destruct (tao_in s) as [| |text| |t]; try discriminate. simpl in Hok.
    destruct (Num.leb t 0); [discriminate|].
    destruct (Num.ltb t (Num.mul stake ratio)); [discriminate | reflexivity].
Qed.

(** X7, on pool 7 at a stake of 1 and a ratio of 10. *)
Lemma X7_witness :
  kept [3; 7] 1 10 Sample.pool7 = true <->
  netuid Sample.pool7 ∈ [3; 7] /\
  (exists p, price Sample.pool7 = Number p /\ Num.leb p 0 = false) /\
  passes Sample.pool7 1 10 = true.
Proof.
  apply (X7_filters_agree_with_gate [3; 7] 1 10 Sample.pool7); reflexivity.
Defined.

(** X20.  Ties go to the candidate met first, because the incumbent is
    replaced only on a strictly greater score.  For two candidates [a]
    (earlier) and [b] (later) that pass the tests of the loop with equal
    scores:
    - an iteration that changes the state adopts a candidate whose score
      is strictly greater than the incumbent's;
    - [b] is passed over: the loop ends as if [b] were not in the list;
    - with pairwise distinct netuids, [b] is never the one returned;
    - when nothing raises, the tied score is above zero, every scoring
      candidate before [a] scores below it and nothing after it scores
      above it, [a] is the one returned. *)
Theorem X20_ties_favor_first_seen
    (wl : list Z) (stake ratio : float) (l1 l2 l3 : list Subnet) (a b : Subnet) :
  kept wl stake ratio a = true ->
  kept wl stake ratio b = true ->
  Num.eqb (score a) (score b) = true ->
  (forall st st' s,
      select_step wl stake ratio st s = inr st' -> st' <> st ->
      st' = (Some s, score s) /\ Num.ltb (snd st) (score s) = true) /\
  select_loop wl stake ratio (l1 ++ a :: l2 ++ b :: l3)
    = select_loop wl stake ratio (l1 ++ a :: l2 ++ l3) /\
  (NoDup (netuid <$> (l1 ++ a :: l2 ++ b :: l3)) ->
   forall msg,
     select_result wl stake ratio (l1 ++ a :: l2 ++ b :: l3)
     <> inr (Some b, msg)) /\
  ((forall x, x ∈ l1 ++ a :: l2 ++ b :: l3 -> breaks wl x = false) ->
   Num.ltb 0 (score a) = true ->
   (forall x, x ∈ l1 -> kept wl stake ratio x = true ->
              Num.ltb 0 (score x) = true ->
              Num.ltb (score x) (score a) = true) ->
   (forall x, x ∈ l2 ++ l3 -> kept wl stake ratio x = true ->
              Num.ltb (score a) (score x) = false) ->
   select_result wl stake ratio (l1 ++ a :: l2 ++ b :: l3) = inr (Some a, None)).
Proof.
  intros Ha Hb Heq.
  pose proof (select_loop_passes_over wl stake ratio l1 l2 l3 a b Ha Hb Heq)
    as Hskip.
  split; [|split; [exact Hskip|split]].
  - intros st st' s Hstep Hne. rewrite select_step_unfold in Hstep.
    destruct (raised wl s); [discriminate|]. injection Hstep as <-.
    destruct (advance_cases wl stake ratio st s) as [[Hk _] | (Hk & _ & Hlt)];
      [contradiction | auto].
  - intros Hnd msg Hsel. unfold select_result in Hsel. rewrite Hskip in Hsel.
    change (select_result wl stake ratio (l1 ++ a :: l2 ++ l3)
            = inr (Some b, msg)) in Hsel.
    apply select_result_Some in Hsel as (_ & _ & _ & _ & _ & la & lb & Hl & _).
    assert (Hin : b ∈ l1 ++ a :: l2 ++ l3).
    { rewrite Hl. apply elem_of_app. right. apply elem_of_cons. auto. }
    replace (l1 ++ a :: l2 ++ b :: l3) with ((l1 ++ a :: l2) ++ b :: l3) in Hnd
      by (rewrite <- app_assoc; reflexivity).
    rewrite fmap_app, fmap_cons in Hnd.
    apply NoDup_app in Hnd as (_ & Hdisj & Hnd3).
    apply NoDup_cons in Hnd3 as [Hb3 _].
    replace (l1 ++ a :: l2 ++ l3) with ((l1 ++ a :: l2) ++ l3) in Hin
      by (rewrite <- app_assoc; reflexivity).
    apply elem_of_app in Hin as [Hin | Hin].
    + apply (Hdisj (netuid b)).
      * apply list_elem_of_fmap_2. assumption.
      * apply elem_of_cons. auto.
    + apply Hb3. apply list_elem_of_fmap_2. assumption.
  - intros Hall Hpos H1 H23.
    apply select_result_first; auto.
    intros x Hx Hkx. apply elem_of_app in Hx as [Hx | Hx].
    + apply H23; [|assumption]. apply elem_of_app. auto.
    + apply elem_of_cons in Hx as [-> | Hx].
      * destruct (Num.ltb (score a) (score b)) eqn:E; [|reflexivity].
        rewrite <- (ltb_irrefl (score a)).
        symmetry. eapply ltb_eqb_trans; [exact E | apply eqb_sym, Heq].
      * apply H23; [|assumption]. apply elem_of_app. auto.
Qed.

(** X20, on two tied candidates followed by a better one. *)
Lemma X20_witness :
  select_loop [1; 2; 3] 1 10 [Sample.alpha; Sample.beta; Sample.gamma]
  = select_loop [1; 2; 3] 1 10 [Sample.alpha; Sample.gamma].
Proof.
  exact (proj1 (proj2 (X20_ties_favor_first_seen
                         [1; 2; 3] 1 10 [] [] [Sample.gamma]
                         Sample.alpha Sample.beta eq_refl eq_refl eq_refl))).
Defined.

(** ** Lookup by netuid *)

Lemma find_first {A} (f : A -> bool) (l : list A) :
  match find f l with
  | Some x => exists l1 l2, l = l1 ++ x :: l2 /\ f x = true /\
                            forall y, y ∈ l1 -> f y = false
  | None => forall y, y ∈ l -> f y = false
  end.
Proof.
  induction l as [|a l IH]; simpl.
  - intros y Hy. inversion Hy.
  - destruct (f a) eqn:Hfa.
    + exists [], l. repeat split; auto. intros y Hy. inversion Hy.
    + destruct (find f l) as [x|].
      * destruct IH as (l1 & l2 & -> & Hx & Hbefore).
        exists (a :: l1), l2. repeat split; auto.
        intros y Hy. apply elem_of_cons in Hy as [-> | Hy]; auto.
      * intros y Hy. apply elem_of_cons in Hy as [-> | Hy]; auto.
Qed.

(** X8.  [get_subnet_by_netuid] fetches the subnets once and returns the
    first one whose netuid is the one asked for, or [None] when there is
    none; an error of the fetch is passed on. *)
Theorem X8_lookup_returns_first_match
    (w : World) (subtensor : Subtensor) (target : Z) :
  match subnets_of w subtensor with
  | inl e =>
      get_subnet_by_netuid w subtensor target = (Raise e, [AllSubnets subtensor])
  | inr subnets =>
      exists found,
        get_subnet_by_netuid w subtensor target
        = (Return found, [AllSubnets subtensor]) /\
        match found with
        | Some s =>
            exists before after,
              subnets = before ++ s :: after /\ netuid s = target /\
              Forall (fun x => netuid x <> target) before
        | None => Forall (fun x => netuid x <> target) subnets
        end
  end.
Proof.
  unfold get_subnet_by_netuid.
  destruct (subnets_of w subtensor) as [e|subnets]; [reflexivity|].
  simpl.
  exists (find (fun s => bool_decide (netuid s = target)) subnets).
  split; [reflexivity|].
  pose proof (find_first (fun s => bool_decide (netuid s = target)) subnets) as H.
  destruct (find _ subnets) as [s|].
  - destruct H as (l1 & l2 & -> & Hs & Hbefore).
    exists l1, l2. split; [reflexivity|].
    split; [apply bool_decide_eq_true in Hs; exact Hs|].
    apply Forall_forall. intros x Hx.
    apply Hbefore in Hx. apply bool_decide_eq_false in Hx. exact Hx.
  - apply Forall_forall. intros x Hx.
    apply H in Hx. apply bool_decide_eq_false in Hx. exact Hx.
Qed.

(** ** The connector, network by network *)

(** X9.  [connect_to_bittensor] returns a client of the first network of
    its list that answers within three tries: every network before it was
    tried three times and given up with one warning each, and the tries
    on the network itself stop at its first answer.  It raises exactly
    when no network of the list answers within three tries, after giving
    up on each of them. *)
Theorem X9_connects_to_first_answering_network (w : World) (primary : string) :
  let m := connect_to_bittensor w primary in
  match fst m with
  | Return sub =>
      exists pre post k,
        networks_to_try primary = pre ++ connected_to sub :: post /\
        Forall (fun x => first_answer w x = None) pre /\
        first_answer w (connected_to sub) = Some k /\
        opens (trace_of m) = three_tries_each pre ++ replicate k (connected_to sub) /\
        given_up (trace_of m) = pre /\
        last (trace_of m) = Some (Log INFO (Connected (connected_to sub)))
  | Raise e =>
      Forall (fun x => first_answer w x = None) (networks_to_try primary) /\
      given_up (trace_of m) = networks_to_try primary
  | Next v => match v with end
  end.
Proof.
  cbv zeta. unfold trace_of.
  pose proof (connect_to_bittensor_first w primary) as H. cbv zeta in H.
  destruct (fst (connect_to_bittensor w primary)) as [[]|sub|e].
  - destruct H as (pre & post & k & Hl & Hpre & Hk & Ho & Hg & Hlast & _).
    exists pre, post, k. repeat split; assumption.
  - destruct H as (Hall & _ & Hg & _). split; assumption.
Qed.

(** X10.  The fallback networks are used only when the preferred network
    fails three times: if it answers on try [k], the client returned is
    the preferred network's, exactly [k] clients were constructed, all for
    that network, and no network was given up. *)
Theorem X10_primary_network_is_preferred (w : World) (primary : string) (k : nat) :
  first_answer w primary = Some k ->
  fst (connect_to_bittensor w primary) = Return {| connected_to := primary |} /\
  opens (trace_of (connect_to_bittensor w primary)) = replicate k primary /\
  connecting (trace_of (connect_to_bittensor w primary)) = [primary] /\
  given_up (trace_of (connect_to_bittensor w primary)) = [].
Proof.
  intros Hfirst. unfold trace_of, connect_to_bittensor, networks_to_try.
  cbn [app connect_loop].
  pose proof (connect_with_retry_first w primary) as Hretry. cbv zeta in Hretry.
  rewrite Hfirst in Hretry.
  destruct (connect_with_retry w primary) as [r t].
  simpl in Hretry.
  destruct Hretry as (Hgiven & Hcon & -> & Ho).
  simpl. rewrite opens_app, given_up_app, connecting_app, Ho, Hgiven, Hcon.
  simpl. rewrite app_nil_r. repeat split; reflexivity.
Qed.

(** X10, on a preferred network that answers on the first try. *)
Lemma X10_witness :
  opens (trace_of (connect_to_bittensor
                     (Sample.world Sample.always_up [] 0 (inr true)
                        (Sample.config None [] false))
                     "archive"))
  = ["archive"].
Proof.
  apply (X10_primary_network_is_preferred
           (Sample.world Sample.always_up [] 0 (inr true)
              (Sample.config None [] false))
           "archive" 1).
  reflexivity.
Defined.

(** ** The orchestrator, path by path *)

Lemma staked_app t1 t2 : staked (t1 ++ t2) = staked t1 ++ staked t2.
Proof. apply omap_app. Qed.

Lemma unlocked_app t1 t2 : unlocked (t1 ++ t2) = unlocked t1 ++ unlocked t2.
Proof. apply omap_app. Qed.

Lemma balances_read_app t1 t2 :
  balances_read (t1 ++ t2) = balances_read t1 ++ balances_read t2.
Proof. apply omap_app. Qed.

Lemma logged_app t1 t2 : logged (t1 ++ t2) = logged t1 ++ logged t2.
Proof. apply omap_app. Qed.

(** A reading that ignores the events of the connection phase finds
    nothing in a connection trace. *)
Lemma omap_connection_phase {A} (f : event -> option A) (t : list event) :
  (forall ev, connection_phase ev -> f ev = None) ->
  Forall connection_phase t -> omap f t = [].
Proof.
  intros Hf. induction 1 as [|ev t Hev _ IH]; [reflexivity|].
  simpl. rewrite (Hf ev Hev). exact IH.
Qed.

Lemma connection_phase_staked t : Forall connection_phase t -> staked t = [].
Proof.
  apply omap_connection_phase.
  intros [[] [] | | | | | | | | | |]; simpl; intros H; try reflexivity; contradiction.
Qed.

Lemma connection_phase_unlocked t : Forall connection_phase t -> unlocked t = [].
Proof.
  apply omap_connection_phase.
  intros [[] [] | | | | | | | | | |]; simpl; intros H; try reflexivity; contradiction.
Qed.

Lemma connection_phase_balances_read t :
  Forall connection_phase t -> balances_read t = [].
Proof.
  apply omap_connection_phase.
  intros [[] [] | | | | | | | | | |]; simpl; intros H; try reflexivity; contradiction.
Qed.

(** The last steps of the guarded part, on the resolved candidate: the
    price, the liquidity gate, the dry run and the stake call. *)
Ltac walk_gate :=
  cbn [fst snd];
  rewrite ?fst_bind, ?snd_bind, ?fst_bind;
  match goal with
  | |- context [price_block ?s] =>
      rewrite (price_block_unfold s);
      destruct (price s) as [| |price_text| |p] eqn:Hprice; cbn [fst snd];
      [| | | | rewrite stake_block_unfold; cbv zeta;
             match goal with
             | |- context [check_liquidity ?a ?b ?c] =>
                 destruct (check_liquidity a b c)
                   as [e_liquidity|[[[|] tao_in_pool] liquidity_msg]]
                   eqn:Hliquidity
             end;
             cbn [fst snd];
             [| match goal with
                | |- context [dry_run ?cfg] => destruct (dry_run cfg) eqn:Hdry
                end;
                cbn [fst snd];
                [| match goal with
                   | |- context [add_stake ?a ?b ?c ?d ?e ?f] =>
                       destruct (add_stake a b c d e f) as [e_stake|[|]] eqn:Hstake
                   end;
                   cbn [fst snd] ]
              |]]
  end.

(** The guarded part of [run], one goal per path, in program order. *)
Ltac walk_guarded w config subtensor :=
  unfold run_guarded;
  rewrite ?fst_bind, ?snd_bind, ?fst_bind;
  rewrite (unlock_block_unfold w config);
  destruct (unlock_coldkey w (wallet_name config)) as [e_unlock|wallet] eqn:Hunlock;
  cbn [fst snd];
  [| rewrite ?fst_bind, ?snd_bind, ?fst_bind, balance_block_unfold; cbv zeta;
     match goal with
     | |- context [balance_of ?a ?b ?c] =>
         destruct (balance_of a b c) as [e_balance|balance] eqn:Hbalance
     end;
     cbn [fst snd];
     [| match goal with
        | |- context [Num.ltb ?a ?b] => destruct (Num.ltb a b) eqn:Hfunds
        end;
        cbn [fst snd];
        [| rewrite ?fst_bind, ?snd_bind, ?fst_bind, target_block_unfold; cbv zeta;
           destruct (target_netuid config) as [target|] eqn:Htarget;
           [ destruct (subnets_of w subtensor) as [e_fetch|subnets] eqn:Hfetch;
             [| match goal with
                | |- context [find ?f ?l] =>
                    destruct (find f l) as [subnet|] eqn:Hfound
                end;
                [walk_gate|] ]
           | destruct (whitelist config) as [|uid0 wl0] eqn:Hwl;
             [| destruct (subnets_of w subtensor) as [e_fetch|subnets] eqn:Hfetch;
                [| match goal with
                   | |- context [select_result ?a ?b ?c ?d] =>
                       destruct (select_result a b c d)
                         as [e_select|[[subnet|] error]] eqn:Hsel
                   end;
                   [| walk_gate |] ]]]]]].

(** What the guarded part submits: nothing, or one stake of the
    configured amount on a candidate that was fetched, passed the price
    and liquidity steps and is the configured target or a whitelisted
    netuid, after the balance was found not to be below the amount plus
    0.01. *)
Lemma run_guarded_stake (w : World) (config : Config) (subtensor : Subtensor) :
  match staked (snd (run_guarded w config subtensor)) with
  | [] => True
  | [(uid, amount)] =>
      amount = stake_amount config /\ dry_run config = false /\
      exists wallet balance subnets s,
        unlock_coldkey w (wallet_name config) = inr wallet /\
        balance_of w subtensor (coldkey_ss58_address wallet) = inr balance /\
        Num.ltb balance (Num.add (stake_amount config) 0.01) = false /\
        subnets_of w subtensor = inr subnets /\
        s ∈ subnets /\ netuid s = uid /\
        (exists p, price s = Number p) /\
        passes s (stake_amount config) (min_liquidity_ratio config) = true /\
        (target_netuid config = Some uid \/
         target_netuid config = None /\ uid ∈ whitelist config)
  | _ => False
  end.
Proof.
  walk_guarded w config subtensor; try exact I.
  all: cbn [staked omap stake_of app].
  all: split; [reflexivity|]; split; [reflexivity|].
  all: exists wallet, balance, subnets, subnet.
  all: assert (Hpass : passes subnet (stake_amount config)
                         (min_liquidity_ratio config) = true)
         by (unfold passes; rewrite Hliquidity; reflexivity).
  1-3: apply find_some in Hfound as [Hin Huid];
       apply list_elem_of_In in Hin; apply bool_decide_eq_true in Huid;
       subst target; repeat split; eauto.
  all: apply select_result_Some in Hsel
         as (_ & _ & Hkept & _ & _ & l1 & l2 & Hl & _);
       apply kept_in_whitelist in Hkept;
       repeat split; eauto;
       rewrite Hl; apply elem_of_app; right; apply elem_of_cons; auto.
Qed.

(** The guarded part asks each collaborator at most once, the wallet
    first. *)
Lemma run_guarded_asks_once (w : World) (config : Config) (subtensor : Subtensor) :
  unlocked (snd (run_guarded w config subtensor)) = [wallet_name config] /\
  (length (balances_read (snd (run_guarded w config subtensor))) <= 1)%nat /\
  (fetches (snd (run_guarded w config subtensor)) <= 1)%nat.
Proof.
  walk_guarded w config subtensor; simpl; repeat split; lia.
Qed.

(** Without a target id and without a whitelist, the missing target is
    reported only once the wallet is unlocked and the balance found not
    to be below the stake plus 0.01. *)
Lemma run_guarded_late_config_error (w : World) (config : Config)
    (subtensor : Subtensor) :
  target_netuid config = None -> whitelist config = [] ->
  ((ERROR, NoTargetOrWhitelist) ∈ logged (snd (run_guarded w config subtensor))
   <-> exists wallet balance,
        unlock_coldkey w (wallet_name config) = inr wallet /\
        balance_of w subtensor (coldkey_ss58_address wallet) = inr balance /\
        Num.ltb balance (Num.add (stake_amount config) 0.01) = false).
Proof.
  intros Htarget Hwl.
  unfold run_guarded. rewrite snd_bind, unlock_block_unfold.
  destruct (unlock_coldkey w (wallet_name config)) as [e|wallet] eqn:Hunlock;
    cbn [fst snd].
  { simpl. split.
    - intros H. apply elem_of_cons in H as [H | H]; [discriminate H | inversion H].
    - intros (wallet & balance & H & _). discriminate H. }
  rewrite snd_bind, balance_block_unfold. cbv zeta.
  destruct (balance_of w subtensor (coldkey_ss58_address wallet))
    as [e|balance] eqn:Hbalance; cbn [fst snd].
  { simpl. split.
    - intros H. apply elem_of_cons in H as [H | H]; [discriminate H|].
      apply elem_of_cons in H as [H | H]; [discriminate H | inversion H].
    - intros (wallet' & balance & [= <-] & H & _). rewrite Hbalance in H.
      discriminate H. }
  destruct (Num.ltb balance (Num.add (stake_amount config) 0.01)) eqn:Hfunds;
    cbn [fst snd].
  { simpl. split.
    - intros H. apply elem_of_cons in H as [H | H]; [discriminate H|].
      apply elem_of_cons in H as [H | H]; [discriminate H | inversion H].
    - intros (wallet' & balance' & [= <-] & H & Hok). rewrite Hbalance in H.
      injection H as <-. rewrite Hfunds in Hok. discriminate Hok. }
  rewrite snd_bind, target_block_unfold, Htarget, Hwl. simpl.
  split.
  - intros _. exists wallet, balance. auto.
  - intros _. apply elem_of_cons. right. apply elem_of_cons. right.
    apply elem_of_cons. left. reflexivity.
Qed.

(** ** Further properties of [run] *)

(** X11.  A run asks each collaborator at most once: the wallet is
    unlocked once, and only after a connection is established; the
    balance is read at most once, the candidates are fetched at most once
    and at most one stake is submitted.  When no connection is established
    none of them is asked. *)
Theorem X11_run_asks_each_collaborator_once (w : World) (config : Config) :
  let t := trace_of (run w config) in
  match fst (connect_to_bittensor w (network config)) with
  | Return _ => unlocked t = [wallet_name config]
  | _ => unlocked t = [] /\ balances_read t = [] /\ fetches t = O /\ staked t = []
  end /\
  (length (balances_read t) <= 1)%nat /\
  (fetches t <= 1)%nat /\
  (length (staked t) <= 1)%nat.
Proof.
  cbv zeta. unfold trace_of. rewrite run_unfold.
  destruct (connect_to_bittensor_spec w (network config))
    as (Hphase & [(n & e & Hr & _) | (pre & n & post & j & _ & _ & Hr & _)]);
    destruct (connect_to_bittensor w (network config)) as [r t];
    simpl in Hr, Hphase; subst r; cbn [fst snd].
  - rewrite unlocked_app, balances_read_app, fetches_app, staked_app.
    rewrite (connection_phase_unlocked t Hphase),
      (connection_phase_balances_read t Hphase),
      (connection_phase_fetches t Hphase), (connection_phase_staked t Hphase).
    simpl. repeat split; lia.
  - rewrite !unlocked_app, !balances_read_app, !fetches_app, !staked_app.
    rewrite (connection_phase_unlocked t Hphase),
      (connection_phase_balances_read t Hphase),
      (connection_phase_fetches t Hphase), (connection_phase_staked t Hphase).
    destruct (run_guarded_asks_once w config {| connected_to := n |})
      as (Hunlock & Hbalance & Hfetch).
    pose proof (run_guarded_stake w config {| connected_to := n |}) as Hstake.
    rewrite Hunlock. simpl. rewrite !app_nil_r, !Nat.add_0_r.
    repeat split; auto.
    destruct (staked (snd (run_guarded w config {| connected_to := n |})))
      as [|[uid amount] [|more rest]]; simpl; solve [lia | contradiction].
Qed.

(** X12.  A run submits a stake only for the configured amount, outside a
    dry run, after the test [balance < stake_amount + 0.01] on doubles
    came out false, and on a candidate that was fetched, has a price that
    [float] converts, passed [check_liquidity], and is the configured
    target id or, without one, a netuid of the whitelist. *)
Theorem X12_stake_only_when_safe (w : World) (config : Config) :
  match staked (trace_of (run w config)) with
  | [] => True
  | [(uid, amount)] =>
      amount = stake_amount config /\ dry_run config = false /\
      exists subtensor wallet balance subnets s,
        fst (connect_to_bittensor w (network config)) = Return subtensor /\
        unlock_coldkey w (wallet_name config) = inr wallet /\
        balance_of w subtensor (coldkey_ss58_address wallet) = inr balance /\
        Num.ltb balance (Num.add (stake_amount config) 0.01) = false /\
        subnets_of w subtensor = inr subnets /\
        s ∈ subnets /\ netuid s = uid /\
        (exists p, price s = Number p) /\
        passes s (stake_amount config) (min_liquidity_ratio config) = true /\
        (target_netuid config = Some uid \/
         target_netuid config = None /\ uid ∈ whitelist config)
  | _ => False
  end.
Proof.
  unfold trace_of. rewrite run_unfold.
  destruct (connect_to_bittensor_spec w (network config))
    as (Hphase & [(n & e & Hr & _) | (pre & n & post & j & _ & _ & Hr & _)]);
    destruct (connect_to_bittensor w (network config)) as [r t];
    simpl in Hr, Hphase; subst r; cbn [fst snd].
  - rewrite staked_app, (connection_phase_staked t Hphase). exact I.
  - rewrite !staked_app, (connection_phase_staked t Hphase). simpl.
    rewrite app_nil_r.
    pose proof (run_guarded_stake w config {| connected_to := n |}) as Hstake.
    destruct (staked (snd (run_guarded w config {| connected_to := n |})))
      as [|[uid amount] [|more rest]]; auto.
    destruct Hstake as (Hamount & Hdry & wallet & balance & subnets & s & H).
    split; [exact Hamount|]. split; [exact Hdry|].
    exists {| connected_to := n |}, wallet, balance, subnets, s.
    split; [reflexivity | exact H].
Qed.

(** X14.  A configuration with neither a target id nor a whitelist is
    found out late: "No target_netuid or whitelist specified" is logged
    exactly when a connection was established, the wallet was unlocked and
    the test [balance < stake_amount + 0.01] on doubles came out false. *)
Theorem X14_missing_target_is_reported_last (w : World) (config : Config) :
  target_netuid config = None -> whitelist config = [] ->
  ((ERROR, NoTargetOrWhitelist) ∈ logged (trace_of (run w config))
   <-> exists subtensor wallet balance,
        fst (connect_to_bittensor w (network config)) = Return subtensor /\
        unlock_coldkey w (wallet_name config) = inr wallet /\
        balance_of w subtensor (coldkey_ss58_address wallet) = inr balance /\
        Num.ltb balance (Num.add (stake_amount config) 0.01) = false).
Proof.
  intros Htarget Hwl. unfold trace_of. rewrite run_unfold.
  assert (Hquiet : forall t, Forall connection_phase t ->
                             (ERROR, NoTargetOrWhitelist) ∉ logged t).
  { intros t Hall Hin. unfold logged in Hin.
    apply list_elem_of_omap in Hin as (ev & Hev & Hlog).
    rewrite Forall_forall in Hall. specialize (Hall ev Hev).
    destruct ev as [[] [] | | | | | | | | | |]; simpl in *;
      try discriminate; contradiction. }
  destruct (connect_to_bittensor_spec w (network config))
    as (Hphase & [(n & e & Hr & _) | (pre & n & post & j & _ & _ & Hr & _)]);
    destruct (connect_to_bittensor w (network config)) as [r t];
    simpl in Hr, Hphase; subst r; cbn [fst snd].
  - rewrite logged_app. split.
    + intros H. apply elem_of_app in H as [H | H].
      * exfalso. exact (Hquiet t Hphase H).
      * simpl in H. apply list_elem_of_singleton in H. discriminate H.
    + intros (sub & _ & _ & H & _). discriminate H.
  - rewrite !logged_app.
    pose proof (run_guarded_late_config_error w config {| connected_to := n |}
                  Htarget Hwl) as Hlate.
    split.
    + intros H. apply elem_of_app in H as [H | H];
        [exfalso; exact (Hquiet t Hphase H)|].
      apply elem_of_app in H as [H | H]; [|inversion H].
      apply Hlate in H as (wallet & balance & H).
      exists {| connected_to := n |}, wallet, balance.
      split; [reflexivity | exact H].
    + intros (sub & wallet & balance & [= <-] & H).
      apply elem_of_app. right. apply elem_of_app. left.
      apply Hlate. exists wallet, balance. exact H.
Qed.

(** X14, on a configuration with neither, a live network and a balance
    of 5. *)
Lemma X14_witness :
  (ERROR, NoTargetOrWhitelist)
    ∈ logged (trace_of (run (Sample.world Sample.always_up [Sample.alpha] 5
                               (inr true) (Sample.config None [] false))
                            (Sample.config None [] false))).
Proof.
  apply (X14_missing_target_is_reported_last
           (Sample.world Sample.always_up [Sample.alpha] 5 (inr true)
              (Sample.config None [] false))
           (Sample.config None [] false) eq_refl eq_refl).
  exists {| connected_to := "finney" |}, Sample.wallet, 5%float.
  repeat split.
Defined.

(** ** [main] and the configuration file *)

Lemma load_config_trace (w : World) (path : string) :
  snd (load_config w path) = [ReadConfig path].
Proof.
  unfold load_config.
  destruct (read_yaml w path) as [[e|data]|]; try reflexivity.
  simpl.
  destruct (yaml_wallet_name data); [|reflexivity].
  destruct (yaml_validator_hotkey data); [|reflexivity].
  destruct (yaml_stake_amount data) as [[q|]|]; try reflexivity.
  simpl.
  destruct (get_or (yaml_min_liquidity_ratio data) (YamlNumber 10)); reflexivity.
Qed.

Lemma run_staked (w : World) (config : Config) :
  staked (snd (run w config)) =
    match fst (connect_to_bittensor w (network config)) with
    | Return subtensor => staked (snd (run_guarded w config subtensor))
    | _ => []
    end.
Proof.
  rewrite run_unfold.
  destruct (connect_to_bittensor_spec w (network config))
    as (Hphase & [(n & e & Hr & _) | (pre & n & post & j & _ & _ & Hr & _)]);
    destruct (connect_to_bittensor w (network config)) as [r t];
    simpl in Hr, Hphase; subst r; cbn [fst snd];
    rewrite !staked_app, (connection_phase_staked t Hphase); [reflexivity|].
  simpl. rewrite app_nil_r. reflexivity.
Qed.

Lemma run_dry_never_stakes (w : World) (config : Config) :
  dry_run config = true -> staked (snd (run w config)) = [].
Proof.
  intros Hdry. rewrite run_staked.
  destruct (fst (connect_to_bittensor w (network config))) as [v|subtensor|e];
    try reflexivity.
  pose proof (run_guarded_stake w config subtensor) as H.
  destruct (staked (snd (run_guarded w config subtensor)))
    as [|[uid amount] [|more rest]]; [reflexivity | | contradiction].
  destruct H as (_ & Hno & _). rewrite Hdry in Hno. discriminate Hno.
Qed.

(** A run that lets an exception escape ends by closing its connection. *)
Lemma run_raise_last (w : World) (config : Config) (e : exn) :
  fst (run w config) = Raise e ->
  exists subtensor, last (snd (run w config)) = Some (Close subtensor).
Proof.
  rewrite run_unfold.
  destruct (connect_to_bittensor_spec w (network config))
    as (_ & [(n & e' & Hr & _) | (pre & n & post & j & _ & _ & Hr & _)]);
    destruct (connect_to_bittensor w (network config)) as [r t];
    simpl in Hr; subst r; cbn [fst snd]; [discriminate|].
  intros _. exists {| connected_to := n |}.
  rewrite app_assoc. apply last_snoc.
Qed.

(** X15.  A dry run never submits a stake, whether it is asked for in
    the configuration or by [--dry-run] on the command line, which
    overrides the configuration. *)
Theorem X15_dry_run_never_stakes (w : World) (config : Config) (args : Args) :
  (dry_run config = true -> staked (trace_of (run w config)) = []) /\
  (cli_dry_run args = true -> staked (trace_of (main w args)) = []).
Proof.
  split; [apply run_dry_never_stakes|].
  intros Hcli. unfold trace_of. rewrite main_unfold, Hcli.
  pose proof (load_config_trace w (config_path args)) as Hload.
  destruct (load_config w (config_path args)) as [[v|loaded|e] t0];
    [destruct v | | simpl in Hload; subst t0; reflexivity].
  simpl in Hload. subst t0. cbv zeta.
  destruct (setup_log w (log_file (with_dry_run loaded))); [reflexivity|].
  pose proof (run_dry_never_stakes w (with_dry_run loaded) eq_refl) as Hrun.
  destruct (run w (with_dry_run loaded)) as [[v|code|e] t]; [destruct v | |];
    simpl in Hrun; simpl; rewrite ?staked_app, Hrun; reflexivity.
Qed.

(** X15, on a configuration file that asks for a real stake. *)
Lemma X15_witness :
  staked (trace_of (main (Sample.world Sample.always_up [Sample.alpha] 5
                            (inr true) (Sample.config (Some 1) [] false))
                         {| config_path := "config.yaml"; cli_dry_run := true |}))
  = [].
Proof.
  apply (X15_dry_run_never_stakes
           (Sample.world Sample.always_up [Sample.alpha] 5 (inr true)
              (Sample.config (Some 1) [] false))
           (Sample.config (Some 1) [] true)
           {| config_path := "config.yaml"; cli_dry_run := true |}).
  reflexivity.
Defined.

(** X16.  [main] constructs a client or logs a record only when the
    configuration has loaded and the log has been set up, with the
    configuration's log file and [dry_run] forced on if [--dry-run] was
    given.  It exits with 0 only when, after both, the run returns 0.
    When its last event is the record "Finished with exit code", [main]
    returns the code of that record; and when [main] returns a code, its
    last event is that record, or the code is 1 and the last event is the
    configuration error printed to stderr.  A log that cannot be set up
    ends [main] with the exception, before anything is logged. *)
Theorem X16_main_reports_what_run_returns (w : World) (args : Args) :
  let m := main w args in
  (opens (trace_of m) <> [] \/ logged (trace_of m) <> [] ->
   exists loaded,
     fst (load_config w (config_path args)) = Return loaded /\
     setup_log w (log_file (if cli_dry_run args then with_dry_run loaded
                            else loaded)) = None) /\
  (exit_status m = 0 ->
   exists loaded,
     fst (load_config w (config_path args)) = Return loaded /\
     setup_log w (log_file (if cli_dry_run args then with_dry_run loaded
                            else loaded)) = None /\
     fst (run w (if cli_dry_run args then with_dry_run loaded else loaded))
     = Return 0) /\
  (forall code,
      last (trace_of m) = Some (Log INFO (Finished code)) ->
      fst m = Return code) /\
  (forall code,
      fst m = Return code ->
      last (trace_of m) = Some (Log INFO (Finished code)) \/
      code = 1 /\ exists e, last (trace_of m) = Some (Stderr e)) /\
  (forall loaded e,
      fst (load_config w (config_path args)) = Return loaded ->
      setup_log w (log_file (if cli_dry_run args then with_dry_run loaded
                             else loaded)) = Some e ->
      fst m = Raise e /\ logged (trace_of m) = [] /\ opens (trace_of m) = []).
Proof.
  cbv zeta. unfold trace_of, exit_status. rewrite main_unfold.
  pose proof (load_config_trace w (config_path args)) as Hload.
  destruct (load_config w (config_path args)) as [[v|loaded|e] t0];
    [destruct v | |]; simpl in Hload; subst t0; cbv zeta; cbn [fst snd].
  - set (config := if cli_dry_run args then with_dry_run loaded else loaded).
    destruct (setup_log w (log_file config)) as [e|] eqn:Hlog; cbn [fst snd].
    + split; [|split; [|split; [|split]]].
      * intros [H | H]; contradiction.
      * discriminate.
      * discriminate.
      * discriminate.
      * intros loaded' e' [= <-]. fold config. rewrite Hlog.
        intros [= <-]. repeat split.
    + pose proof (run_raise_last w config) as Hraise.
      destruct (run w config) as [[v|code|e] t] eqn:Hrun; [destruct v | |];
        cbn [fst snd status] in *.
      * split; [|split; [|split; [|split]]].
        -- intros _. exists loaded. auto.
        -- intros ->. exists loaded. fold config. rewrite Hrun. auto.
        -- intros code'. rewrite !app_assoc, last_snoc. intros [= ->]. reflexivity.
        -- intros code' [= <-]. left. rewrite !app_assoc. apply last_snoc.
        -- intros loaded' e' [= <-]. fold config. rewrite Hlog. discriminate.
      * destruct (Hraise e eq_refl) as (sub & Hlast).
        assert (Hend : forall pre, last (pre ++ t) = Some (Close sub)).
        { intros pre. rewrite last_app, Hlast. reflexivity. }
        split; [|split; [|split; [|split]]].
        -- intros _. exists loaded. auto.
        -- discriminate.
        -- intros code'. rewrite Hend. discriminate.
        -- discriminate.
        -- intros loaded' e' [= <-]. fold config. rewrite Hlog. discriminate.
  - split; [|split; [|split; [|split]]].
    + intros [H | H]; contradiction.
    + discriminate.
    + discriminate.
    + intros code [= <-]. right. split; [reflexivity|]. exists e. reflexivity.
    + discriminate.
Qed.

(** X17.  [load_config] returns a configuration exactly when the file
    exists and parses, holds [wallet_name], [validator_hotkey] and
    [stake_amount], and [float] accepts the stake amount and the liquidity
    ratio.  Nothing else is checked: any amount, any ratio, a missing
    target and a missing whitelist are accepted.  Keys that are absent get
    their defaults: ratio 10, network "finney", log file "logs/dca.log",
    no dry run, no target, empty whitelist. *)
Theorem X17_load_config_checks_presence_only
    (w : World) (path : string) (cfg : Config) :
  fst (load_config w path) = Return cfg <->
  exists data,
    read_yaml w path = Some (inr data) /\
    yaml_wallet_name data = Some (wallet_name cfg) /\
    yaml_validator_hotkey data = Some (validator_hotkey cfg) /\
    yaml_stake_amount data = Some (YamlNumber (stake_amount cfg)) /\
    match yaml_min_liquidity_ratio data with
    | Some v => v = YamlNumber (min_liquidity_ratio cfg)
    | None => min_liquidity_ratio cfg = 10%float
    end /\
    target_netuid cfg = yaml_target_netuid data /\
    whitelist cfg = match yaml_whitelist data with Some l => l | None => [] end /\
    network cfg = match yaml_network data with Some n => n | None => "finney" end /\
    log_file cfg = match yaml_log_file data with
                   | Some f => f
                   | None => "logs/dca.log"
                   end /\
    dry_run cfg = match yaml_dry_run data with Some b => b | None => false end.
Proof.
  unfold load_config. split.
  - destruct (read_yaml w path) as [[e|data]|]; try discriminate. simpl.
    destruct (yaml_wallet_name data) as [name|] eqn:Hname; [|discriminate].
    destruct (yaml_validator_hotkey data) as [hotkey|] eqn:Hhotkey; [|discriminate].
    destruct (yaml_stake_amount data) as [[stake|]|] eqn:Hstake; try discriminate.
    simpl.
    destruct (yaml_min_liquidity_ratio data) as [[ratio|]|] eqn:Hratio;
      simpl; try discriminate; intros [= <-]; exists data; simpl;
      rewrite Hratio; repeat split; assumption.
  - intros (data & -> & Hname & Hhotkey & Hstake & Hratio & Htarget & Hwl
            & Hnet & Hlog & Hdry).
    simpl. rewrite Hname, Hhotkey, Hstake. simpl.
    destruct cfg as [name hotkey stake target wl ratio net logf dry].
    simpl in *. subst target wl net logf dry.
    destruct (yaml_min_liquidity_ratio data) as [v|]; subst; reflexivity.
Qed.

(** ** The wallet password *)

(** X18.  [get_wallet_password] prefers the environment: a non-empty
    [WALLET_PASSWORD] is returned as it is, whatever the password file
    is.  An empty variable counts as unset.  A password that is returned
    is the non-empty value of the variable or the stripped text of the
    file, and the file is read only when the variable gives none.  The
    function raises exactly when the variable is unset or empty and the
    file does not exist or cannot be read; the error of the read is
    passed on. *)
Theorem X18_password_from_environment_first
    (strip : string -> string) (secrets : Secrets) :
  (forall p file,
      p <> "" ->
      get_wallet_password strip
        {| env_WALLET_PASSWORD := Some p; password_file := file |} = inr p) /\
  get_wallet_password strip
    {| env_WALLET_PASSWORD := Some ""; password_file := password_file secrets |}
  = get_wallet_password strip
      {| env_WALLET_PASSWORD := None; password_file := password_file secrets |} /\
  (forall p,
      get_wallet_password strip secrets = inr p ->
      env_WALLET_PASSWORD secrets = Some p /\ p <> "" \/
      (env_WALLET_PASSWORD secrets = None \/ env_WALLET_PASSWORD secrets = Some "") /\
      exists text, password_file secrets = Some (inr text) /\ p = strip text) /\
  ((exists e, get_wallet_password strip secrets = inl e) <->
   (env_WALLET_PASSWORD secrets = None \/ env_WALLET_PASSWORD secrets = Some "") /\
   (password_file secrets = None \/
    exists e, password_file secrets = Some (inl e))) /\
  (forall e,
      password_file secrets = Some (inl e) ->
      env_WALLET_PASSWORD secrets = None \/ env_WALLET_PASSWORD secrets = Some "" ->
      get_wallet_password strip secrets = inl e).
Proof.
  split; [|split; [reflexivity|split; [|split]]].
  - intros [|c rest] file Hne; [contradiction | reflexivity].
  - intros p. unfold get_wallet_password.
    destruct (env_WALLET_PASSWORD secrets) as [[|c rest]|].
    + destruct (password_file secrets) as [[e|text]|]; try discriminate.
      intros [= <-]. right. split; [auto|]. exists text. auto.
    + intros [= <-]. left. split; [reflexivity | discriminate].
    + destruct (password_file secrets) as [[e|text]|]; try discriminate.
      intros [= <-]. right. split; [auto|]. exists text. auto.
  - unfold get_wallet_password.
    destruct (env_WALLET_PASSWORD secrets) as [[|c rest]|];
      destruct (password_file secrets) as [[e|text]|]; split;
      try (intros [e' H]; discriminate H);
      try (intros _; split; eauto; fail);
      try (intros _; eexists; reflexivity);
      try (intros [[H | H] _]; discriminate H);
      try (intros [_ [H | [e' H]]]; discriminate H).
  - intros e Hfile Henv. unfold get_wallet_password. rewrite Hfile.
    destruct Henv as [-> | ->]; reflexivity.
Qed.

(** ** Exit code and error log *)

Lemma errors_app t1 t2 : errors (t1 ++ t2) = (errors t1 + errors t2)%nat.
Proof.
  induction t1 as [|ev t1 IH]; [reflexivity|].
  destruct ev as [[] ? | | | | | | | | | |]; simpl; rewrite IH; reflexivity.
Qed.

Lemma connection_phase_errors t : Forall connection_phase t -> errors t = O.
Proof.
  induction 1 as [|ev t Hev _ IH]; [reflexivity|].
  destruct ev as [[] [] | | | | | | | | | |]; simpl in *; auto; contradiction.
Qed.

Lemma run_guarded_errors (w : World) (config : Config) (subtensor : Subtensor) :
  match fst (run_guarded w config subtensor) with
  | Return code =>
      errors (snd (run_guarded w config subtensor))
      = (if (code =? 1)%Z then 1 else 0)%nat
  | Raise _ => errors (snd (run_guarded w config subtensor)) = O
  | Next v => match v with end
  end.
Proof.
  walk_guarded w config subtensor; reflexivity.
Qed.

(** X19.  The exit code of [run] can be read off the log: a run that
    returns 1 has logged exactly one record at level ERROR, and a run that
    returns 0 or lets an exception escape has logged none. *)
Theorem X19_one_error_record_per_failure (w : World) (config : Config) :
  match fst (run w config) with
  | Return code =>
      errors (trace_of (run w config)) = (if (code =? 1)%Z then 1 else 0)%nat
  | Raise _ => errors (trace_of (run w config)) = O
  | Next v => match v with end
  end.
Proof.
  unfold trace_of. rewrite run_unfold.
  destruct (connect_to_bittensor_spec w (network config))
    as (Hphase & [(n & e & Hr & _) | (pre & n & post & j & _ & _ & Hr & _)]);
    destruct (connect_to_bittensor w (network config)) as [r t];
    simpl in Hr, Hphase; subst r; cbn [fst snd].
  - rewrite errors_app, (connection_phase_errors t Hphase). reflexivity.
  - pose proof (run_guarded_errors w config {| connected_to := n |}) as H.
    rewrite !errors_app, (connection_phase_errors t Hphase).
    destruct (fst (run_guarded w config {| connected_to := n |})) as [v|code|e];
      [destruct v | |]; rewrite H; simpl; lia.
Qed.
